(** * MemLens middleware: the encoded-blocks pipeline

    A shallow embedding of [src/middleware/controllers/explorer.js]
    (handler [getEncodedBlocks] with its helpers [getDataFromCache] and
    [getDataFromApi]) together with the delta codec of
    [utils/encoding], and the properties of the pipeline.

    Conventions of the embedding:
    - a JavaScript number that the handler manipulates is [NaN] or an
      integer ([num]); integers are exact (the rounding of doubles beyond
      2^53 is outside the model);
    - a thrown value is an [exn] carrying its [message];
    - the handler runs in a writer/exception monad [Eff]: every call to the
      logger, the SQLite connection, axios or the response object appends an
      [event] to the trace, and [try_catch] is JavaScript's try/catch. *)

From stdpp Require Import base strings list gmap sorting pretty.
From Stdlib Require Import ZArith Lia Ascii.

Set Warnings "-register-all".

Open Scope Z_scope.

(** ** JavaScript values *)

(** A number as the handler sees it: the result of [parseInt]. *)
Inductive num : Type :=
| NaN
| Int (z : Z).

Definition isNaN (n : num) : bool :=
  match n with
  | NaN => true
  | Int _ => false
  end.

(** A number inside a template literal. *)
Definition num_to_string (n : num) : string :=
  match n with
  | NaN => "NaN"
  | Int z => pretty z
  end.

(** Thrown values: [Error] objects, of which the handler reads [message]. *)
Record exn : Type := Error { message : string }.

(** The outcome of a call that may throw. *)
Inductive result (A : Type) : Type :=
| Ret (a : A)
| Throw (e : exn).
Arguments Ret {A} a.
Arguments Throw {A} e.

#[global] Instance result_ret : MRet result := λ A a, Ret a.
#[global] Instance result_bind : MBind result := λ A B f r,
  match r with
  | Ret a => f a
  | Throw e => Throw e
  end.

(** JSON values, as they appear in response bodies. *)
Inductive json : Type :=
| JNull
| JBool (b : bool)
| JNum (z : Z)
| JStr (s : string)
| JArr (l : list json)
| JObj (o : list (string * json)).

(** ** [parseInt(x, 10)] *)

Definition is_white_space (c : ascii) : bool :=
  match Ascii.N_of_ascii c with
  | 9 | 10 | 11 | 12 | 13 | 32 => true
  | _ => false
  end%N.

Definition digit_of (c : ascii) : option Z :=
  let n := Z.of_N (Ascii.N_of_ascii c) in
  if bool_decide (48 ≤ n ≤ 57) then Some (n - 48) else None.

Fixpoint skip_white_space (s : string) : string :=
  match s with
  | String c s' => if is_white_space c then skip_white_space s' else s
  | EmptyString => s
  end.

(** The value of the longest prefix of decimal digits, [None] when the
    prefix is empty. *)
Fixpoint leading_digits (acc : option Z) (s : string) : option Z :=
  match s with
  | String c s' =>
      match digit_of c with
      | Some d => leading_digits (Some (10 * default 0 acc + d)) s'
      | None => acc
      end
  | EmptyString => acc
  end.

Definition parseInt_string (s : string) : num :=
  let s := skip_white_space s in
  let '(sign, s) :=
    match s with
    | String "-" s' => (-1, s')
    | String "+" s' => (1, s')
    | _ => (1, s)
    end in
  match leading_digits None s with
  | Some n => Int (sign * n)
  | None => NaN
  end.

(** A query parameter is a string, or [undefined] ([None]) when absent;
    [parseInt] first converts its argument to a string. *)
Definition parseInt (x : option string) : num :=
  parseInt_string (default "undefined" x).

(** ** Samples *)

Record Sample : Type := mkSample { epoch : Z; volume : Z }.

(** ** The delta codec *)

Module DeltaCodec.

(** Modelled from the spec: [utils/encoding] ([applyDeltaEncoding],
    [decodeDeltaEncoding]) is not part of the sources at hand.  The spec
    (4.1) fixes the contract: the first sample is stored as an absolute
    base pair, every later one as the signed differences
    [epoch[i] - epoch[i-1]] and [volume[i] - volume[i-1]]; decoding
    accumulates the deltas onto the base and fails with [MalformedSeries]
    when the number of deltas does not agree with the declared length. *)
Record EncodedSeries : Type := mkSeries {
  count : nat;
  base : option Sample;
  deltas : list (Z * Z)
}.

Fixpoint deltas_from (prev : Sample) (l : list Sample) : list (Z * Z) :=
  match l with
  | [] => []
  | s :: l' => (epoch s - epoch prev, volume s - volume prev) :: deltas_from s l'
  end.

Definition encode (samples : list Sample) : EncodedSeries :=
  match samples with
  | [] => mkSeries 0 None []
  | s :: l => mkSeries (length samples) (Some s) (deltas_from s l)
  end.

Fixpoint accumulate (prev : Sample) (ds : list (Z * Z)) : list Sample :=
  match ds with
  | [] => []
  | (de, dv) :: ds' =>
      let s := mkSample (epoch prev + de) (volume prev + dv) in
      s :: accumulate s ds'
  end.

Definition MalformedSeries : exn := Error "MalformedSeries".

Definition decode (series : EncodedSeries) : result (list Sample) :=
  match base series with
  | None =>
      if bool_decide (count series = 0%nat ∧ deltas series = [])
      then Ret []
      else Throw MalformedSeries
  | Some b =>
      if bool_decide (count series = S (length (deltas series)))
      then Ret (b :: accumulate b (deltas series))
      else Throw MalformedSeries
  end.

(** Modelled from the spec: the fields of the encoded object.  The spec
    (3, 9) leaves their names to the implementation and only asks for a
    base, the ordered deltas and the declared length; the names below are
    those of this model. *)
Definition sample_to_json (s : Sample) : json :=
  JObj [("epoch", JNum (epoch s)); ("volume", JNum (volume s))].

Definition delta_to_json (d : Z * Z) : json :=
  JArr [JNum d.1; JNum d.2].

Definition series_to_object (e : EncodedSeries) : gmap string json :=
  {[ "length" := JNum (Z.of_nat (count e));
     "base" := from_option sample_to_json JNull (base e);
     "deltas" := JArr (delta_to_json <$> deltas e) ]}.

Definition sample_of_json (j : json) : option Sample :=
  match j with
  | JObj [("epoch", JNum e); ("volume", JNum v)] => Some (mkSample e v)
  | _ => None
  end.

Definition delta_of_json (j : json) : option (Z * Z) :=
  match j with
  | JArr [JNum de; JNum dv] => Some (de, dv)
  | _ => None
  end.

Definition series_of_object (o : gmap string json) : option EncodedSeries :=
  match o !! "length", o !! "base", o !! "deltas" with
  | Some (JNum n), Some b, Some (JArr ds) =>
      if bool_decide (0 ≤ n) then
        ds' ← mapM delta_of_json ds;
        match b with
        | JNull => Some (mkSeries (Z.to_nat n) None ds')
        | _ => s ← sample_of_json b; Some (mkSeries (Z.to_nat n) (Some s) ds')
        end
      else None
  | _, _, _ => None
  end.

(** Modelled from the spec: the two entry points of [utils/encoding]. *)
Definition applyDeltaEncoding (samples : list Sample) : result (gmap string json) :=
  Ret (series_to_object (encode samples)).

Definition decodeDeltaEncoding (o : gmap string json) : result (list Sample) :=
  match series_of_object o with
  | Some series => decode series
  | None => Throw MalformedSeries
  end.

End DeltaCodec.

(** ** The collaborators of the controller *)

(** A row of the [transactions] table of the SQLite cache, restricted to
    the three selected columns; [volume] is nullable. *)
Module CacheRow.
Record t : Type := mk {
  block_id : Z;
  volume : option Z;
  created_at : string
}.
End CacheRow.

(** The [Transaction] and [Block] typedefs.  Of a block the controller
    reads [createdAt] and [transactions] only, both through [?.]: either
    may be missing. *)
Record Transaction : Type := mkTransaction {
  cmd : string;
  key : string;
  value : string
}.

Module Block.
Record t : Type := mk {
  transactions : option (list Transaction);
  createdAt : option string
}.
End Block.

(** [response.data] of the remote endpoint: an array of records (a record
    that is [null] or [undefined] is [None]), or any other value. *)
Inductive payload : Type :=
| PUndefined
| PNull
| PBool (b : bool)
| PNum (z : Z)
| PStr (s : string)
| PObject (o : list (string * json))
| PArray (records : list (option Block.t)).

(** The two statements that [getDataFromCache] prepares. *)
Inductive Query : Type :=
| SelectBetween
    (* SELECT block_id, volume, created_at FROM transactions
       WHERE block_id BETWEEN ? AND ? ORDER BY block_id ASC *)
| SelectFirst100
    (* SELECT block_id, volume, created_at FROM transactions
       ORDER BY block_id ASC LIMIT 100 *).

(** The SQLite connection: a failing store answers every statement with
    its error, a working one holds the table. *)
Record Db : Type := mkDb {
  db_fault : option exn;
  db_transactions : list CacheRow.t
}.

(** What surrounds one request: the cache and the remote explorer, which
    answers a GET on a URL with a payload or fails (network error, status
    outside 2xx). *)
Record World : Type := mkWorld {
  db : Db;
  axios_request : string → result payload
}.

(** The helper modules the controller requires ([utils/envParser],
    [utils/time], [utils/encoding]); their sources are not at hand, so the
    controller is modelled over this interface.  The timestamp conversion
    yields a unix-epoch integer or throws; the encoder yields an object,
    whose fields the cache-hit response spreads next to [isCached], or
    throws. *)
Class Utils : Type := mkUtils {
  getEnv : string → string;
  parseTimeToUnixEpoch : option string → result Z;
  applyDeltaEncoding : list Sample → result (gmap string json)
}.

(** The request: the two optional query parameters. *)
Record Request : Type := mkRequest {
  query_start : option string;
  query_end : option string
}.

(** ** Effects *)

Inductive event : Type :=
| LogInfo (msg : string)
| LogError (msg : string) (e : exn)
| DbAll (q : Query) (params : list num)
| AxiosGet (url : string)
| ResSend (status : Z) (body : gmap string json).

(** A computation: the events it performed, then its outcome. *)
Definition Eff (A : Type) : Type := list event * result A.

#[global] Instance Eff_ret : MRet Eff := λ A a, ([], Ret a).
#[global] Instance Eff_bind : MBind Eff := λ A B f m,
  match m.2 with
  | Ret a => (m.1 ++ (f a).1, (f a).2)
  | Throw e => (m.1, Throw e)
  end.

Definition emit (ev : event) : Eff unit := ([ev], Ret tt).

Definition lift {A} (r : result A) : Eff A := ([], r).

(** [try { body } catch (e) { handler e }] *)
Definition try_catch {A} (body : Eff A) (handler : exn → Eff A) : Eff A :=
  match body.2 with
  | Ret a => body
  | Throw e => (body.1 ++ (handler e).1, (handler e).2)
  end.

Definition logger_info (msg : string) : Eff unit := emit (LogInfo msg).
Definition logger_error (msg : string) (e : exn) : Eff unit := emit (LogError msg e).

(** [res.send(body)] answers with status 200, [res.status(s).send(body)]
    with [s]. *)
Definition res_send (status : Z) (body : gmap string json) : Eff unit :=
  emit (ResSend status body).

(** The responses of a run. *)
Definition responses (t : list event) : list (Z * gmap string json) :=
  omap (λ ev, match ev with ResSend s b => Some (s, b) | _ => None end) t.

(** The URLs requested in a run. *)
Definition requests (t : list event) : list string :=
  omap (λ ev, match ev with AxiosGet u => Some u | _ => None end) t.

(** ** SQLite *)

Definition block_id_le (r1 r2 : CacheRow.t) : Prop := CacheRow.block_id r1 ≤ CacheRow.block_id r2.

#[global] Instance block_id_le_dec : RelDecision block_id_le.
Proof. intros r1 r2. unfold block_id_le. apply _. Defined.

(** [block_id BETWEEN ? AND ?] with the bound parameters; a parameter that
    is unbound or [NaN] is NULL, and a comparison with NULL selects
    nothing. *)
Definition between (params : list num) (r : CacheRow.t) : bool :=
  match params with
  | [Int lo; Int hi] => bool_decide (lo ≤ CacheRow.block_id r ≤ hi)
  | _ => false
  end.

Definition run_query (q : Query) (params : list num) (table : list CacheRow.t) : list CacheRow.t :=
  match q with
  | SelectBetween => merge_sort block_id_le (filter (λ r, between params r = true) table)
  | SelectFirst100 => take 100 (merge_sort block_id_le table)
  end.

(** [db.all(query, params, callback)] seen through the promise that
    [getDataFromCache] wraps around it: [reject(err)] throws at the
    [await], [resolve(rows)] returns the rows. *)
Definition db_all (d : Db) (q : Query) (params : list num) : Eff (list CacheRow.t) :=
  emit (DbAll q params);;
  lift match db_fault d with
       | Some err => Throw err
       | None => Ret (run_query q params (db_transactions d))
       end.

(** ** The controller *)

(** [x || 0] on a nullable integer: [null] and [0] are falsy. *)
Definition or_zero (x : option Z) : Z :=
  match x with
  | Some v => if bool_decide (v = 0) then 0 else v
  | None => 0
  end.

(** [data.map(f)]: a [TypeError] unless [data] is an array. *)
Definition TypeError_map (p : payload) : exn :=
  match p with
  | PUndefined => Error "Cannot read properties of undefined (reading 'map')"
  | PNull => Error "Cannot read properties of null (reading 'map')"
  | _ => Error "data.map is not a function"
  end.

Section controller.
Context `{Utils}.

Definition getDataFromCache (w : World) (start end_ : num) : Eff (list CacheRow.t) :=
  let '(query, params) :=
    if negb (isNaN start) && negb (isNaN end_)
    then (SelectBetween, [start; end_])
    else (SelectFirst100, []) in
  db_all (db w) query params.

(** The callback of [data.map] in [getDataFromApi]. *)
Definition sample_of_record (record : option Block.t) : result Sample :=
  e ← parseTimeToUnixEpoch (record ≫= Block.createdAt);
  mret (mkSample e
          (or_zero (Z.of_nat ∘ length <$> (record ≫= Block.transactions)))).

Definition getDataFromApi (w : World) (start end_ : num) : Eff (list Sample) :=
  let baseUrl := getEnv "EXPLORER_BASE_URL" +:+ "/v1/blocks/1/100" in
  let baseUrl :=
    if negb (isNaN start) && negb (isNaN end_)
    then getEnv "EXPLORER_BASE_URL" +:+ "/v1/blocks/"
           +:+ num_to_string start +:+ "/" +:+ num_to_string end_
    else baseUrl in
  emit (AxiosGet baseUrl);;
  data ← lift (axios_request w baseUrl);
  match data with
  | PArray records => lift (mapM sample_of_record records)
  | _ => lift (Throw (TypeError_map data))
  end.

(** The callback of [cacheData.map] in [getEncodedBlocks]. *)
Definition sample_of_row (record : CacheRow.t) : result Sample :=
  e ← parseTimeToUnixEpoch (Some (CacheRow.created_at record));
  mret (mkSample e (or_zero (CacheRow.volume record))).

(** The first [try] block of [getEncodedBlocks]; the result tells whether
    the block returned from the handler ([return res.send(...)]). *)
Definition cacheBranch (w : World) (start end_ : num) : Eff bool :=
  logger_info "Attempting to fetch blocks from cache";;
  cacheData ← getDataFromCache w start end_;
  if bool_decide (0 < length cacheData)%nat then
    logger_info ("Cache hit for blocks, returned "
                   +:+ pretty (length cacheData) +:+ " records");;
    modifiedData ← lift (mapM sample_of_row cacheData);
    modifiedData ← lift (applyDeltaEncoding modifiedData);
    (* { isCached: true, ...modifiedData }: a later key wins *)
    res_send 200 (modifiedData ∪ {[ "isCached" := JBool true ]});;
    mret true
  else
    logger_info ("Cache miss for blocks " +:+ num_to_string start +:+ "-"
                   +:+ num_to_string end_ +:+ ", falling back to API");;
    mret false.

(** The second [try] block of [getEncodedBlocks], with its [catch]. *)
Definition apiBranch (w : World) (start end_ : num) : Eff unit :=
  try_catch
    (apiData ← getDataFromApi w start end_;
     modifiedData ← lift (applyDeltaEncoding apiData);
     res_send 200 modifiedData)
    (λ error,
       logger_error "Error fetching block data from API:" error;;
       res_send 500 {[ "error" := JStr "Failed to fetch block data";
                       "details" := JStr (message error) ]}).

Definition getEncodedBlocks (w : World) (req : Request) : Eff unit :=
  let start := parseInt (query_start req) in
  let end_ := parseInt (query_end req) in
  returned ←
    try_catch (cacheBranch w start end_)
      (λ cacheError,
         logger_error "Error retrieving data from cache. Continue to API fallback"
           cacheError;;
         mret false);
  if returned : bool then mret tt else apiBranch w start end_.

End controller.

(** ** The pass-through handlers *)

(** What [getExplorerData] and [getBlocks] hand to [res.send]: the remote
    [response.data] as it came, or an error object. *)
Inductive reply : Type :=
| ReplyData (data : payload)
| ReplyObject (body : gmap string json).

(** The events of the pass-through handlers.  [ProxySend None body] is
    [res.send(body)] on a response whose status the handler left alone,
    [ProxySend (Some s) body] is [res.status(s).send(body)]. *)
Inductive proxy_event : Type :=
| ProxyLogError (msg : string) (e : exn)
| ProxyGet (url : string)
| ProxySend (status : option Z) (body : reply).

Definition Proxy (A : Type) : Type := list proxy_event * result A.

#[global] Instance Proxy_ret : MRet Proxy := λ A a, ([], Ret a).
#[global] Instance Proxy_bind : MBind Proxy := λ A B f m,
  match m.2 with
  | Ret a => (m.1 ++ (f a).1, (f a).2)
  | Throw e => (m.1, Throw e)
  end.

Definition proxy_emit (ev : proxy_event) : Proxy unit := ([ev], Ret tt).

Definition proxy_lift {A} (r : result A) : Proxy A := ([], r).

Definition proxy_try_catch {A} (body : Proxy A) (handler : exn → Proxy A) : Proxy A :=
  match body.2 with
  | Ret a => body
  | Throw e => (body.1 ++ (handler e).1, (handler e).2)
  end.

Definition proxy_responses (t : list proxy_event) : list (option Z * reply) :=
  omap (λ ev, match ev with ProxySend s b => Some (s, b) | _ => None end) t.

Definition proxy_requests (t : list proxy_event) : list string :=
  omap (λ ev, match ev with ProxyGet u => Some u | _ => None end) t.

Section proxies.
Context `{Utils}.

Definition getExplorerData (w : World) (req : Request) : Proxy unit :=
  let baseUrl := getEnv "EXPLORER_BASE_URL" +:+ "/populatetable" in
  proxy_try_catch
    (proxy_emit (ProxyGet baseUrl);;
     data ← proxy_lift (axios_request w baseUrl);
     proxy_emit (ProxySend None (ReplyData data)))
    (λ error,
       proxy_emit (ProxyLogError "Error fetching explorer data:" error);;
       proxy_emit (ProxySend (Some 500)
         (ReplyObject {[ "error" := JStr "Failed to fetch explorer data";
                         "details" := JStr (message error) ]}))).

Definition getBlocks (w : World) (req : Request) : Proxy unit :=
  let start := parseInt (query_start req) in
  let end_ := parseInt (query_end req) in
  if isNaN start || isNaN end_ then
    proxy_emit (ProxySend (Some 400)
      (ReplyObject
         {[ "error" := JStr "Pass valid start and end query params as part of the request" ]}))
  else
    let url := getEnv "EXPLORER_BASE_URL" +:+ "/v1/blocks/"
                 +:+ num_to_string start +:+ "/" +:+ num_to_string end_ in
    proxy_try_catch
      (proxy_emit (ProxyGet url);;
       data ← proxy_lift (axios_request w url);
       proxy_emit (ProxySend None (ReplyData data)))
      (λ error,
         proxy_emit (ProxyLogError "Error fetching block data:" error);;
         proxy_emit (ProxySend (Some 500)
           (ReplyObject {[ "error" := JStr "Failed to fetch block data";
                           "details" := JStr (message error) ]}))).

End proxies.

(** The statements sent to the store in a run of [getEncodedBlocks]. *)
Definition queries (t : list event) : list (Query * list num) :=
  omap (λ ev, match ev with DbAll q ps => Some (q, ps) | _ => None end) t.

(** A run that consults the store and the remote explorer strictly one
    after the other: every statement sent to the store comes before every
    request to the explorer. *)
Definition store_before_remote (t : list event) : Prop :=
  ∀ i j q ps url,
    t !! i = Some (DbAll q ps) → t !! j = Some (AxiosGet url) → (i < j)%nat.

(** A remote explorer that serves the table dump and one block range. *)
Definition Demo_remote_proxy (url : string) : result payload :=
  if bool_decide (url = "http://explorer:18000/populatetable")
  then Ret (PStr "<table/>")
  else if bool_decide (url = "http://explorer:18000/v1/blocks/1/2")
  then Ret (PArray [])
  else Throw (Error "Request failed with status code 404").

Definition Demo_world_proxy : World := mkWorld (mkDb None []) Demo_remote_proxy.

(** A string that does not go on with a decimal digit: it is empty or
    starts with another character. *)
Definition no_leading_digit (s : string) : Prop :=
  match s with
  | String c _ => digit_of c = None
  | EmptyString => True
  end.

(** ** Vocabulary of the properties *)

(** A stretch of a run that neither answers the caller nor calls the
    remote explorer. *)
Definition quiet (t : list event) : Prop := responses t = [] ∧ requests t = [].

(** The body of the error response of [getEncodedBlocks]. *)
Definition failure_body (error : exn) : gmap string json :=
  {[ "error" := JStr "Failed to fetch block data";
     "details" := JStr (message error) ]}.

Section vocabulary.
Context `{Utils}.

(** The exceptions that the first [try] block of [getEncodedBlocks] can
    raise: the storage error of the cache read, the failure of the
    timestamp conversion on a returned row, and the failure of the delta
    encoding of the converted rows. *)
Definition cache_throws (w : World) (start end_ : num) (err : exn) : Prop :=
  (getDataFromCache w start end_).2 = Throw err ∨
  ∃ rows, (getDataFromCache w start end_).2 = Ret rows ∧ rows ≠ [] ∧
    (mapM sample_of_row rows = Throw err ∨
     ∃ samples, mapM sample_of_row rows = Ret samples ∧
                applyDeltaEncoding samples = Throw err).

(** The cache read gives nothing to answer with: it failed or returned
    no row. *)
Definition cache_unusable (w : World) (start end_ : num) : Prop :=
  (∃ err, (getDataFromCache w start end_).2 = Throw err) ∨
  (getDataFromCache w start end_).2 = Ret [].

(** The cache path does not answer the request: the read returned no
    row, or the first [try] block raised an exception. *)
Definition cache_path_fails (w : World) (start end_ : num) : Prop :=
  (getDataFromCache w start end_).2 = Ret [] ∨
  ∃ err, cache_throws w start end_ err.

End vocabulary.




(** ** Concrete collaborators, for evaluating runs *)

Module Demo.

(** Modelled from the spec: [utils/time] is not part of the sources at
    hand.  The spec (4.2, 4.3) describes [parseTimeToUnixEpoch] as the
    conversion of a human-readable timestamp to a unix-epoch integer;
    this is a finite part of that conversion (GMT, seconds), and any
    other argument is rejected. *)
Definition parseTimeToUnixEpoch (t : option string) : result Z :=
  match t with
  | Some "1970-01-01 00:00:00" => Ret 0
  | Some "1970-01-01 00:01:00" => Ret 60
  | Some "1970-01-02 00:00:00" => Ret 86400
  | Some "2001-09-09 01:46:40" => Ret 1000000000
  | _ => Throw (Error "Invalid time value")
  end.

Definition getEnv (name : string) : string :=
  if bool_decide (name = "EXPLORER_BASE_URL") then "http://explorer:18000" else "".

#[local] Instance utils : Utils :=
  mkUtils getEnv parseTimeToUnixEpoch DeltaCodec.applyDeltaEncoding.

Definition tx : Transaction := mkTransaction "SET" "k" "v".

Definition block1 : Block.t := Block.mk (Some [tx; tx]) (Some "1970-01-01 00:00:00").
Definition block2 : Block.t := Block.mk None (Some "1970-01-01 00:01:00").

(** A remote explorer that serves two blocks on one range, a body that is
    not an array on another, and fails elsewhere. *)
Definition remote (url : string) : result payload :=
  if bool_decide (url = "http://explorer:18000/v1/blocks/1/2")
  then Ret (PArray [Some block1; Some block2])
  else if bool_decide (url = "http://explorer:18000/v1/blocks/7/8")
  then Ret PNull
  else Throw (Error "connect ECONNREFUSED").

Definition table : list CacheRow.t :=
  [ CacheRow.mk 2 None "1970-01-01 00:01:00";
    CacheRow.mk 1 (Some 3) "1970-01-01 00:00:00";
    CacheRow.mk 5 (Some 4) "1970-01-02 00:00:00" ].


(** A row whose timestamp the conversion rejects. *)
Definition table_bad_time : list CacheRow.t :=
  [ CacheRow.mk 1 (Some 3) "yesterday" ].

Definition world_hit : World := mkWorld (mkDb None table) remote.
Definition world_empty : World := mkWorld (mkDb None []) remote.
Definition world_broken : World :=
  mkWorld (mkDb (Some (Error "SQLITE_CANTOPEN: unable to open database file")) table) remote.
Definition world_bad_time : World := mkWorld (mkDb None table_bad_time) remote.

Definition req (s e : string) : Request := mkRequest (Some s) (Some e).
Definition req_none : Request := mkRequest None None.

End Demo.

(** * Properties *)

(** ** [parseInt] on examples *)

Example parseInt_plain : parseInt (Some "42") = Int 42.
Proof. reflexivity. Qed.

Example parseInt_signed_prefix : parseInt (Some "  -17abc") = Int (-17).
Proof. reflexivity. Qed.

Example parseInt_absent : parseInt None = NaN.
Proof. reflexivity. Qed.

Example parseInt_no_digits : parseInt (Some "abc") = NaN.
Proof. reflexivity. Qed.

(** ** The delta codec *)

Module DeltaCodecFacts.
Import DeltaCodec.

Lemma accumulate_deltas_from prev l : accumulate prev (deltas_from prev l) = l.
Proof.
  revert prev. induction l as [|[e v] l IH]; intros [pe pv]; simpl; [done|].
  replace (pe + (e - pe)) with e by lia.
  replace (pv + (v - pv)) with v by lia.
  by rewrite IH.
Qed.

Lemma length_deltas_from prev l : length (deltas_from prev l) = length l.
Proof. revert prev. induction l; intros; simpl; auto. Qed.

Lemma decode_encode samples : decode (encode samples) = Ret samples.
Proof.
  destruct samples as [|s l]; [done|].
  unfold decode; simpl. rewrite length_deltas_from.
  rewrite bool_decide_eq_true_2 by done.
  by rewrite accumulate_deltas_from.
Qed.

Lemma mapM_delta_of_json ds : mapM delta_of_json (delta_to_json <$> ds) = Some ds.
Proof. apply mapM_Some. induction ds as [|[??] ds IH]; constructor; auto. Qed.

Lemma lookup_series_to_object e :
  series_to_object e !! "length" = Some (JNum (Z.of_nat (count e))) ∧
  series_to_object e !! "base" = Some (from_option sample_to_json JNull (base e)) ∧
  series_to_object e !! "deltas" = Some (JArr (delta_to_json <$> deltas e)).
Proof. unfold series_to_object. by simplify_map_eq. Qed.

(** Fields besides the three of the series do not disturb its reading. *)
Lemma series_of_object_union e (extra : gmap string json) :
  series_of_object (series_to_object e ∪ extra) = Some e.
Proof.
  destruct (lookup_series_to_object e) as (Hl & Hb & Hd).
  unfold series_of_object.
  rewrite (lookup_union_Some_l _ _ _ _ Hl), (lookup_union_Some_l _ _ _ _ Hb),
    (lookup_union_Some_l _ _ _ _ Hd).
  rewrite bool_decide_eq_true_2 by lia.
  rewrite mapM_delta_of_json, Nat2Z.id; simpl.
  destruct e as [n [[ep vo]|] ds]; reflexivity.
Qed.

Lemma series_of_object_to_object e : series_of_object (series_to_object e) = Some e.
Proof.
  pose proof (series_of_object_union e ∅) as Hu.
  by rewrite (right_id_L ∅ (∪)) in Hu.
Qed.


End DeltaCodecFacts.

(** C1.  Round trip of the delta codec: for every finite sequence of
    samples (the empty and the one-element sequences included), decoding
    the encoding of the sequence gives the sequence back, both on the
    series ([decode (encode s)]) and on the encoded object that the entry
    points exchange. *)
Theorem decode_encode_roundtrip (s : list Sample) :
  DeltaCodec.decode (DeltaCodec.encode s) = Ret s ∧
  ∃ o, DeltaCodec.applyDeltaEncoding s = Ret o ∧
       DeltaCodec.decodeDeltaEncoding o = Ret s.
Proof.
  split; [apply DeltaCodecFacts.decode_encode|].
  eexists; split; [reflexivity|].
  unfold DeltaCodec.decodeDeltaEncoding.
  rewrite DeltaCodecFacts.series_of_object_to_object.
  apply DeltaCodecFacts.decode_encode.
Qed.

Example roundtrip_empty :
  DeltaCodec.applyDeltaEncoding [] ≫= DeltaCodec.decodeDeltaEncoding = Ret [].
Proof. reflexivity. Qed.

Example roundtrip_three :
  let s := [mkSample 100 7; mkSample 160 2; mkSample 160 9] in
  DeltaCodec.deltas (DeltaCodec.encode s) = [(60, -5); (0, 7)] ∧
  DeltaCodec.applyDeltaEncoding s ≫= DeltaCodec.decodeDeltaEncoding = Ret s.
Proof. split; reflexivity. Qed.

(** ** Runs of the controller *)

Section runs.
Context `{Utils}.
Implicit Types (w : World) (start : num) (t : list event).

Lemma responses_app t1 t2 : responses (t1 ++ t2) = responses t1 ++ responses t2.
Proof. apply omap_app. Qed.

Lemma requests_app t1 t2 : requests (t1 ++ t2) = requests t1 ++ requests t2.
Proof. apply omap_app. Qed.

Lemma quiet_app t1 t2 : quiet t1 → quiet t2 → quiet (t1 ++ t2).
Proof.
  intros [Hr1 Hq1] [Hr2 Hq2]. split.
  - by rewrite responses_app, Hr1, Hr2.
  - by rewrite requests_app, Hq1, Hq2.
Qed.

Lemma getDataFromCache_run w start end_ :
  ∃ q ps, getDataFromCache w start end_ =
    ([DbAll q ps],
     match db_fault (db w) with
     | Some err => Throw err
     | None => Ret (run_query q ps (db_transactions (db w)))
     end).
Proof.
  unfold getDataFromCache.
  destruct (negb (isNaN start) && negb (isNaN end_)); eexists _, _; reflexivity.
Qed.

(** The three ways through the first [try] block. *)
Lemma cacheBranch_fault w start end_ err :
  (getDataFromCache w start end_).2 = Throw err →
  ∃ pre, cacheBranch w start end_ = (pre, Throw err) ∧ quiet pre.
Proof.
  unfold cacheBranch.
  destruct (getDataFromCache_run w start end_) as (q & ps & ->); simpl.
  intros Hc. eexists. unfold mbind, Eff_bind; simpl. rewrite Hc.
  split; [reflexivity|done].
Qed.

Lemma cacheBranch_miss w start end_ :
  (getDataFromCache w start end_).2 = Ret [] →
  ∃ pre, cacheBranch w start end_ = (pre, Ret false) ∧ quiet pre.
Proof.
  unfold cacheBranch.
  destruct (getDataFromCache_run w start end_) as (q & ps & ->); simpl.
  intros Hc. eexists. unfold mbind, Eff_bind; simpl. rewrite Hc; simpl.
  split; [reflexivity|done].
Qed.

Lemma cacheBranch_rows w start end_ rows :
  (getDataFromCache w start end_).2 = Ret rows → rows ≠ [] →
  ∃ pre, quiet pre ∧
    cacheBranch w start end_ =
      match mapM sample_of_row rows ≫= applyDeltaEncoding with
      | Ret enc => (pre ++ [ResSend 200 (enc ∪ {[ "isCached" := JBool true ]})], Ret true)
      | Throw err => (pre, Throw err)
      end.
Proof.
  unfold cacheBranch.
  destruct (getDataFromCache_run w start end_) as (q & ps & ->); simpl.
  intros Hc Hne. destruct (db_fault (db w)); [done|]. simplify_eq.
  unfold mbind, Eff_bind, result_bind, lift, logger_info, res_send, emit; simpl.
  rewrite bool_decide_eq_true_2 by (destruct (run_query _ _ _); [done|simpl; lia]).
  simpl. eexists [_; _; _]. split; last first.
  { destruct (mapM sample_of_row _) as [samples|err]; simpl; [|reflexivity].
    destruct (applyDeltaEncoding samples) as [enc|err]; simpl; reflexivity. }
  by split.
Qed.

Lemma getDataFromApi_run w start end_ :
  let url := getEnv "EXPLORER_BASE_URL" +:+
    (if negb (isNaN start) && negb (isNaN end_)
     then "/v1/blocks/" +:+ num_to_string start +:+ "/" +:+ num_to_string end_
     else "/v1/blocks/1/100") in
  getDataFromApi w start end_ =
    ([AxiosGet url],
     match axios_request w url with
     | Ret (PArray records) => mapM sample_of_record records
     | Ret data => Throw (TypeError_map data)
     | Throw err => Throw err
     end).
Proof.
  unfold getDataFromApi.
  destruct (negb (isNaN start) && negb (isNaN end_)); simpl;
    unfold mbind, Eff_bind, lift; simpl;
    (destruct (axios_request w _) as [[]|]; reflexivity).
Qed.

Lemma apiBranch_run w start end_ :
  apiBranch w start end_ =
    ((getDataFromApi w start end_).1 ++
       match (getDataFromApi w start end_).2 ≫= applyDeltaEncoding with
       | Ret enc => [ResSend 200 enc]
       | Throw err =>
           [LogError "Error fetching block data from API:" err;
            ResSend 500 (failure_body err)]
       end,
     Ret tt).
Proof.
  unfold apiBranch. rewrite getDataFromApi_run; simpl.
  unfold try_catch, mbind, Eff_bind, result_bind, lift, failure_body; simpl.
  destruct (axios_request w _) as [[]|]; simpl; try reflexivity.
  destruct (mapM sample_of_record records) as [samples|]; simpl; [|reflexivity].
  destruct (applyDeltaEncoding samples); reflexivity.
Qed.

Lemma apiBranch_returns w start end_ : (apiBranch w start end_).2 = Ret tt.
Proof. by rewrite apiBranch_run. Qed.

Lemma getEncodedBlocks_run w req :
  let start := parseInt (query_start req) in
  let end_ := parseInt (query_end req) in
  getEncodedBlocks w req =
    match (cacheBranch w start end_).2 with
    | Ret true => ((cacheBranch w start end_).1, Ret tt)
    | Ret false =>
        ((cacheBranch w start end_).1 ++ (apiBranch w start end_).1, Ret tt)
    | Throw cacheError =>
        ((cacheBranch w start end_).1 ++
           LogError "Error retrieving data from cache. Continue to API fallback"
             cacheError :: (apiBranch w start end_).1,
         Ret tt)
    end.
Proof.
  intros start end_. unfold getEncodedBlocks. fold start end_.
  pose proof (apiBranch_returns w start end_) as Hapi.
  destruct (cacheBranch w start end_) as [t [[]|err]]; simpl;
    unfold try_catch, mbind, Eff_bind; simpl; rewrite ?Hapi;
    rewrite ?(right_id_L [] (++)); try reflexivity.
  by rewrite <- (assoc_L (++)).
Qed.

Lemma cacheBranch_cases w start end_ :
  (∃ pre err, cacheBranch w start end_ = (pre, Throw err) ∧ quiet pre ∧
              cache_throws w start end_ err) ∨
  (∃ pre, cacheBranch w start end_ = (pre, Ret false) ∧ quiet pre ∧
          (getDataFromCache w start end_).2 = Ret []) ∨
  (∃ pre rows samples enc,
      cacheBranch w start end_ =
        (pre ++ [ResSend 200 (enc ∪ {[ "isCached" := JBool true ]})], Ret true) ∧
      quiet pre ∧
      (getDataFromCache w start end_).2 = Ret rows ∧ rows ≠ [] ∧
      mapM sample_of_row rows = Ret samples ∧
      applyDeltaEncoding samples = Ret enc).
Proof.
  destruct (getDataFromCache w start end_).2 as [rows|err] eqn:Hc.
  - destruct (decide (rows = [])) as [->|Hne].
    + right; left. destruct (cacheBranch_miss _ _ _ Hc) as (pre & -> & Hq). eauto.
    + destruct (cacheBranch_rows _ _ _ _ Hc Hne) as (pre & Hq & ->).
      unfold mbind, result_bind.
      destruct (mapM sample_of_row rows) as [samples|err] eqn:Hm.
      * destruct (applyDeltaEncoding samples) as [enc|err] eqn:He.
        -- right; right. eexists pre, rows, samples, enc. eauto 10.
        -- left. eexists pre, err. split; [done|]. split; [done|].
           right. exists rows. eauto 10.
      * left. eexists pre, err. split; [done|]. split; [done|].
        right. exists rows. eauto 10.
  - left. destruct (cacheBranch_fault _ _ _ _ Hc) as (pre & -> & Hq).
    eexists pre, err. split; [done|]. split; [done|]. by left.
Qed.

Lemma cache_throws_run w start end_ err :
  cache_throws w start end_ err →
  ∃ pre, cacheBranch w start end_ = (pre, Throw err) ∧ quiet pre.
Proof.
  intros [Hc|(rows & Hc & Hne & Hthrow)].
  - by apply cacheBranch_fault.
  - destruct (cacheBranch_rows _ _ _ _ Hc Hne) as (pre & Hq & ->).
    exists pre. split; [|done].
    destruct Hthrow as [Hm|(samples & Hm & He)]; rewrite Hm; simpl;
      rewrite ?He; reflexivity.
Qed.

Lemma cache_path_fails_run w start end_ :
  cache_path_fails w start end_ →
  ∃ pre o, cacheBranch w start end_ = (pre, o) ∧ quiet pre ∧ o ≠ Ret true.
Proof.
  intros [Hc|[err Ht]].
  - destruct (cacheBranch_miss _ _ _ Hc) as (pre & -> & Hq). by eexists _, _.
  - destruct (cache_throws_run _ _ _ _ Ht) as (pre & -> & Hq). by eexists _, _.
Qed.

(** Without an answer from the cache path, the answers of the handler are
    those of the fallback, preceded by the API call. *)
Lemma fallback_run w req :
  let start := parseInt (query_start req) in
  let end_ := parseInt (query_end req) in
  cache_path_fails w start end_ →
  ∃ pre mid,
    (getEncodedBlocks w req).1 = pre ++ mid ++ (apiBranch w start end_).1 ∧
    quiet pre ∧
    (mid = [] ∨
     ∃ err, cache_throws w start end_ err ∧
       mid = [LogError "Error retrieving data from cache. Continue to API fallback" err]).
Proof.
  intros start end_ Hf. rewrite getEncodedBlocks_run. fold start end_.
  destruct Hf as [Hc|[err Ht]].
  - destruct (cacheBranch_miss _ _ _ Hc) as (pre & -> & Hq); simpl.
    exists pre, []. auto.
  - destruct (cache_throws_run _ _ _ _ Ht) as (pre & -> & Hq); simpl.
    eexists pre, [_]. split; [reflexivity|]. split; [done|]. right. eauto.
Qed.

Lemma getDataFromApi_responses w start end_ :
  responses (getDataFromApi w start end_).1 = [].
Proof. by rewrite getDataFromApi_run. Qed.

(** The cache path does not answer and the API client throws. *)
Lemma fallback_failure_run w req apiError :
  let start := parseInt (query_start req) in
  let end_ := parseInt (query_end req) in
  cache_path_fails w start end_ →
  (getDataFromApi w start end_).2 = Throw apiError →
  responses (getEncodedBlocks w req).1 = [(500, failure_body apiError)].
Proof.
  intros start end_ Hf Hapi.
  destruct (fallback_run w req Hf) as (pre & mid & Hrun & Hq & Hmid).
  fold start end_ in Hrun.
  assert (quiet mid) as Hqm by (by destruct Hmid as [->|(err & _ & ->)]).
  rewrite Hrun, apiBranch_run; cbn [fst].
  rewrite Hapi, !responses_app, getDataFromApi_responses.
  by destruct Hq as [-> _], Hqm as [-> _].
Qed.

(** Every run has one of three shapes: answered from the cache, answered
    from the API, or answered with the error response. *)
Lemma getEncodedBlocks_cases w req :
  let start := parseInt (query_start req) in
  let end_ := parseInt (query_end req) in
  let run := (getEncodedBlocks w req).1 in
  (∃ rows samples enc,
      (getDataFromCache w start end_).2 = Ret rows ∧ rows ≠ [] ∧
      mapM sample_of_row rows = Ret samples ∧
      applyDeltaEncoding samples = Ret enc ∧
      responses run = [(200, enc ∪ {[ "isCached" := JBool true ]})] ∧
      requests run = []) ∨
  (cache_path_fails w start end_ ∧
   requests run = requests (getDataFromApi w start end_).1 ∧
   ((∃ samples enc,
        (getDataFromApi w start end_).2 = Ret samples ∧
        applyDeltaEncoding samples = Ret enc ∧
        responses run = [(200, enc)]) ∨
    (∃ err,
        (getDataFromApi w start end_).2 ≫= applyDeltaEncoding = Throw err ∧
        responses run = [(500, failure_body err)]))).
Proof.
  intros start end_ run.
  destruct (cacheBranch_cases w start end_)
    as [(pre & err & Hcb & Hq & Ht)|[(pre & Hcb & Hq & Hc)|
        (pre & rows & samples & enc & Hcb & Hq & Hc & Hne & Hm & He)]].
  3: { left. exists rows, samples, enc. split_and!; try done.
       - unfold run. rewrite getEncodedBlocks_run. fold start end_.
         rewrite Hcb; cbn [fst snd]. rewrite responses_app.
         by destruct Hq as [-> _].
       - unfold run. rewrite getEncodedBlocks_run. fold start end_.
         rewrite Hcb; cbn [fst snd]. rewrite requests_app.
         by destruct Hq as [_ ->]. }
  all: right.
  all: assert (cache_path_fails w start end_) as Hf
    by (first [by left | right; by exists err]).
  all: split; [exact Hf|].
  all: destruct (fallback_run w req Hf) as (pre' & mid & Hrun & Hq' & Hmid).
  all: fold start end_ run in Hrun.
  all: assert (quiet mid) as Hqm by (by destruct Hmid as [->|(err' & _ & ->)]).
  all: rewrite Hrun, apiBranch_run; cbn [fst].
  all: rewrite !requests_app, !responses_app, getDataFromApi_responses.
  all: destruct Hq' as [-> ->], Hqm as [-> ->]; cbn [app].
  all: split;
    [destruct (_ ≫= applyDeltaEncoding); cbn; by rewrite (right_id_L [] (++))|].
  all: destruct (getDataFromApi w start end_).2 as [samples|aerr]; cbn.
  all: try (right; by eexists).
  all: destruct (applyDeltaEncoding samples) as [enc|eerr] eqn:He; cbn.
  all: first [left; by eexists _, _ | right; by eexists].
Qed.

Lemma apiBranch_remote_only w d start end_ :
  apiBranch (mkWorld d (axios_request w)) start end_ = apiBranch w start end_.
Proof. by rewrite !apiBranch_run, !getDataFromApi_run. Qed.

End runs.

(** ** Claims about [getEncodedBlocks] *)

(** C2.  Cache miss and cache error fall back alike.  When the cache read
    raises a storage error or returns zero rows, the handler calls the API
    client with the start and end it parsed from the request, nothing is
    answered and no remote call is made before that call, and exactly one
    answer follows it.  The answers of the run are those of the fallback
    alone, whatever the store is or fails with: the cache error is no part
    of the response, and an error and an empty result give the same
    responses. *)
Theorem cache_unusable_falls_back `{Utils} (w : World) (req : Request) :
  let start := parseInt (query_start req) in
  let end_ := parseInt (query_end req) in
  cache_unusable w start end_ →
  (∃ pre post,
      (getEncodedBlocks w req).1 = pre ++ (getDataFromApi w start end_).1 ++ post ∧
      quiet pre ∧ requests post = [] ∧ length (responses post) = 1%nat) ∧
  (∀ d : Db,
      responses (getEncodedBlocks w req).1 =
      responses (apiBranch (mkWorld d (axios_request w)) start end_).1).
Proof.
  intros start end_ Hu.
  assert (cache_path_fails w start end_) as Hf.
  { destruct Hu as [[err Herr]|Hempty]; [right; exists err; by left|by left]. }
  destruct (fallback_run w req Hf) as (pre & mid & Hrun & Hq & Hmid).
  fold start end_ in Hrun.
  assert (quiet mid) as Hqm by (by destruct Hmid as [->|(err & _ & ->)]).
  split.
  - rewrite Hrun, apiBranch_run; simpl.
    eexists (pre ++ mid), _. rewrite <- !(assoc_L (++)).
    split; [reflexivity|]. split; [by apply quiet_app|].
    by destruct (_ ≫= applyDeltaEncoding).
  - intros d. rewrite apiBranch_remote_only, Hrun, !responses_app.
    destruct Hq as [-> _], Hqm as [-> _]. reflexivity.
Qed.

Lemma cache_unusable_falls_back_witness :
  cache_unusable Demo.world_broken (Int 7) (Int 8) ∧
  ∀ d : Db,
    responses (getEncodedBlocks (H:=Demo.utils) Demo.world_broken (Demo.req "7" "8")).1 =
    responses (apiBranch (H:=Demo.utils) (mkWorld d Demo.remote) (Int 7) (Int 8)).1.
Proof.
  assert (cache_unusable Demo.world_broken (Int 7) (Int 8)) as Hu.
  { left. eexists. reflexivity. }
  split; [exact Hu|].
  exact (proj2 (cache_unusable_falls_back (H:=Demo.utils) Demo.world_broken
                  (Demo.req "7" "8") Hu)).
Defined.

(** The same request against a failing store and against an empty one. *)
Example fallback_same_answer :
  responses (getEncodedBlocks (H:=Demo.utils) Demo.world_broken (Demo.req "1" "2")).1 =
  responses (getEncodedBlocks (H:=Demo.utils) Demo.world_empty (Demo.req "1" "2")).1.
Proof. reflexivity. Qed.

(** C10.  Every exception of the first [try] block is absorbed.  Whether
    the storage read fails, the timestamp conversion fails on a returned
    row, or the delta encoding of the converted rows fails, the exception
    is logged, nothing has been answered, the handler goes on to the API
    client with the same parsed range, and the handler itself does not
    throw. *)
Theorem cache_exception_absorbed `{Utils} (w : World) (req : Request) (err : exn) :
  let start := parseInt (query_start req) in
  let end_ := parseInt (query_end req) in
  cache_throws w start end_ err →
  (getEncodedBlocks w req).2 = Ret tt ∧
  ∃ pre post,
    (getEncodedBlocks w req).1 =
      pre ++ LogError "Error retrieving data from cache. Continue to API fallback" err
          :: (getDataFromApi w start end_).1 ++ post ∧
    quiet pre ∧ requests post = [] ∧ length (responses post) = 1%nat.
Proof.
  intros start end_ Ht.
  destruct (cache_throws_run _ _ _ _ Ht) as (pre & Hcb & Hq).
  rewrite getEncodedBlocks_run. fold start end_. rewrite Hcb; simpl.
  split; [done|]. rewrite apiBranch_run; simpl.
  eexists pre, _. split; [reflexivity|]. split; [done|].
  by destruct (_ ≫= applyDeltaEncoding).
Qed.

Lemma cache_exception_absorbed_witness :
  cache_throws (H:=Demo.utils) Demo.world_bad_time NaN NaN (Error "Invalid time value") ∧
  (getEncodedBlocks (H:=Demo.utils) Demo.world_bad_time Demo.req_none).2 = Ret tt.
Proof.
  assert (cache_throws (H:=Demo.utils) Demo.world_bad_time NaN NaN
            (Error "Invalid time value")) as Ht.
  { right. exists Demo.table_bad_time. split; [reflexivity|].
    split; [discriminate|]. left. reflexivity. }
  split; [exact Ht|].
  exact (proj1 (cache_exception_absorbed (H:=Demo.utils) Demo.world_bad_time
                  Demo.req_none _ Ht)).
Defined.

(** C7.  Double failure.  When the cache path does not answer and the API
    client fails, the run answers exactly once: status 500, a body with an
    [error] field and a [details] field holding the message of the API
    failure; no success response is sent. *)
Theorem double_failure_single_error `{Utils} (w : World) (req : Request) (apiError : exn) :
  let start := parseInt (query_start req) in
  let end_ := parseInt (query_end req) in
  cache_path_fails w start end_ →
  (getDataFromApi w start end_).2 = Throw apiError →
  responses (getEncodedBlocks w req).1 = [(500, failure_body apiError)] ∧
  failure_body apiError !! "error" = Some (JStr "Failed to fetch block data") ∧
  failure_body apiError !! "details" = Some (JStr (message apiError)) ∧
  dom (failure_body apiError) = {[ "error"; "details" ]}.
Proof.
  intros start end_ Hf Hapi. split.
  - by apply fallback_failure_run.
  - unfold failure_body. split_and!; [by simplify_map_eq..|].
    by rewrite dom_insert_L, dom_singleton_L.
Qed.

Lemma double_failure_single_error_witness :
  cache_path_fails (H:=Demo.utils) Demo.world_broken (Int 3) (Int 4) ∧
  responses (getEncodedBlocks (H:=Demo.utils) Demo.world_broken (Demo.req "3" "4")).1 =
    [(500, failure_body (Error "connect ECONNREFUSED"))].
Proof.
  assert (cache_path_fails (H:=Demo.utils) Demo.world_broken (Int 3) (Int 4)) as Hf.
  { right. eexists. left. reflexivity. }
  split; [exact Hf|].
  exact (proj1 (double_failure_single_error (H:=Demo.utils) Demo.world_broken
                  (Demo.req "3" "4") (Error "connect ECONNREFUSED") Hf eq_refl)).
Defined.

(** C9.  A body that is not an array.  When the remote explorer answers
    with a successful status and a body that is [null], [undefined] or any
    other value that is not an array, [getDataFromApi] throws the
    [TypeError] of [data.map] and returns no sample list; a request that
    reaches the fallback is then answered with the 500 error response and
    not with an encoded series. *)
Theorem non_array_body_is_error `{Utils} (w : World) (req : Request) (data : payload) :
  let start := parseInt (query_start req) in
  let end_ := parseInt (query_end req) in
  (∀ url, url ∈ requests (getDataFromApi w start end_).1 →
          axios_request w url = Ret data) →
  (∀ records, data ≠ PArray records) →
  (getDataFromApi w start end_).2 = Throw (TypeError_map data) ∧
  (cache_path_fails w start end_ →
   responses (getEncodedBlocks w req).1 = [(500, failure_body (TypeError_map data))]).
Proof.
  intros start end_ Hremote Hdata.
  assert ((getDataFromApi w start end_).2 = Throw (TypeError_map data)) as Hthrow.
  { rewrite getDataFromApi_run in Hremote |- *; simpl in *.
    rewrite (Hremote _ (list_elem_of_here _ _)).
    destruct data; try reflexivity. by destruct (Hdata records). }
  split; [exact Hthrow|]. intros Hf.
  by apply fallback_failure_run.
Qed.

Lemma non_array_body_is_error_witness :
  axios_request Demo.world_broken "http://explorer:18000/v1/blocks/7/8" = Ret PNull ∧
  (getDataFromApi (H:=Demo.utils) Demo.world_broken (Int 7) (Int 8)).2 =
    Throw (Error "Cannot read properties of null (reading 'map')").
Proof.
  split; [reflexivity|].
  refine (proj1 (non_array_body_is_error (H:=Demo.utils) Demo.world_broken
                   (Demo.req "7" "8") PNull _ _)).
  - intros url Hin. vm_compute in Hin.
    apply list_elem_of_singleton in Hin. rewrite Hin. reflexivity.
  - intros records. discriminate.
Defined.

(** ** [Array.prototype.map] with a callback that may throw *)

Section mapM_result.
Context {A B : Type} (f : A → result B).

Lemma mapM_Ret_Forall2 l k : mapM f l = Ret k ↔ Forall2 (λ x y, f x = Ret y) l k.
Proof.
  revert k. induction l as [|x l IH]; intros k; simpl.
  - split.
    + intros [= <-]. constructor.
    + by inversion 1.
  - split.
    + destruct (f x) as [y|] eqn:Hx; simpl; [|done].
      destruct (mapM f l) as [k'|]; simpl; [|done].
      intros [= <-]. constructor; [done|]. by apply IH.
    + inversion 1 as [|? y ? k' Hx Hl]; subst. rewrite Hx; simpl.
      apply IH in Hl. by rewrite Hl.
Qed.

Lemma mapM_Ret_total l :
  (∀ x, x ∈ l → ∃ y, f x = Ret y) → ∃ k, mapM f l = Ret k.
Proof.
  induction l as [|x l IH]; intros Hf; simpl; [by eexists|].
  destruct (Hf x) as [y ->]; [by left|].
  destruct IH as [k ->]; [intros; apply Hf; by right|]. by eexists.
Qed.

Lemma mapM_Ret_length l k : mapM f l = Ret k → length k = length l.
Proof. intros Hm%mapM_Ret_Forall2. symmetry. by eapply Forall2_length. Qed.

End mapM_result.

Lemma or_zero_default (x : option Z) : or_zero x = default 0 x.
Proof. destruct x as [v|]; simpl; [|done]. by case_bool_decide. Qed.

(** C3.  Cache hit.  When the cache read succeeds with at least one row
    (the timestamp of every row converts and the encoder returns an object
    without an [isCached] field of its own), the run answers once, with
    status 200 and the encoded series extended by [isCached: true], and
    calls no API.  The encoder was given one sample per row, in the order of
    the rows: the epoch is the conversion of [created_at], the volume is the
    row's volume, or 0 when that is null. *)
Theorem cache_hit_response `{Utils} (w : World) (req : Request) (rows : list CacheRow.t) :
  let start := parseInt (query_start req) in
  let end_ := parseInt (query_end req) in
  (getDataFromCache w start end_).2 = Ret rows →
  rows ≠ [] →
  (∀ r, r ∈ rows → ∃ e, parseTimeToUnixEpoch (Some (CacheRow.created_at r)) = Ret e) →
  (∀ l, ∃ enc, applyDeltaEncoding l = Ret enc ∧ enc !! "isCached" = None) →
  ∃ samples enc,
    Forall2 (λ r s, parseTimeToUnixEpoch (Some (CacheRow.created_at r)) = Ret (epoch s) ∧
                    volume s = default 0 (CacheRow.volume r)) rows samples ∧
    length samples = length rows ∧
    applyDeltaEncoding samples = Ret enc ∧
    responses (getEncodedBlocks w req).1 = [(200, <[ "isCached" := JBool true ]> enc)] ∧
    (<[ "isCached" := JBool true ]> enc) !! "isCached" = Some (JBool true) ∧
    (∀ k, k ≠ "isCached" → (<[ "isCached" := JBool true ]> enc) !! k = enc !! k) ∧
    requests (getEncodedBlocks w req).1 = [].
Proof.
  intros start end_ Hc Hne Htime Henc. subst start end_.
  destruct (mapM_Ret_total sample_of_row rows) as [samples Hm].
  { intros r [e He]%Htime. unfold sample_of_row. rewrite He. by eexists. }
  destruct (Henc samples) as (enc & He & Hfree).
  destruct (getEncodedBlocks_cases w req)
    as [(rows' & samples' & enc' & Hc' & _ & Hm' & He' & Hres & Hreq)|[Hf _]].
  - rewrite Hc in Hc'. injection Hc' as <-.
    rewrite Hm in Hm'. injection Hm' as <-.
    rewrite He in He'. injection He' as <-.
    exists samples, enc. split_and!; try done.
    + apply mapM_Ret_Forall2 in Hm.
      eapply Forall2_impl; [exact Hm|]. intros r s. unfold sample_of_row.
      destruct (parseTimeToUnixEpoch _) as [e|]; simpl; [|done].
      intros [= <-]; simpl. by rewrite or_zero_default.
    + by eapply mapM_Ret_length.
    + by rewrite Hres, insert_union_singleton_r.
    + by rewrite lookup_insert_eq.
    + intros k Hk. by rewrite lookup_insert_ne.
  - exfalso. destruct Hf as [Hempty|[err [Hthrow|(rows' & Hc' & _ & Hthrow)]]].
    + rewrite Hc in Hempty. by injection Hempty.
    + by rewrite Hc in Hthrow.
    + rewrite Hc in Hc'. injection Hc' as <-. rewrite Hm in Hthrow.
      destruct Hthrow as [|(samples' & [= <-] & He')]; [done|].
      by rewrite He in He'.
Qed.

Lemma cache_hit_response_witness :
  (getDataFromCache Demo.world_hit (Int 1) (Int 2)).2 =
    Ret [CacheRow.mk 1 (Some 3) "1970-01-01 00:00:00"; CacheRow.mk 2 None "1970-01-01 00:01:00"] ∧
  ∃ samples enc,
    samples = [mkSample 0 3; mkSample 60 0] ∧
    DeltaCodec.applyDeltaEncoding samples = Ret enc ∧
    responses (getEncodedBlocks (H:=Demo.utils) Demo.world_hit (Demo.req "1" "2")).1 =
      [(200, <[ "isCached" := JBool true ]> enc)].
Proof.
  split; [reflexivity|].
  destruct (cache_hit_response (H:=Demo.utils) Demo.world_hit (Demo.req "1" "2") _ eq_refl)
    as (samples & enc & Hrows & _ & He & Hres & _).
  - discriminate.
  - intros r Hr. apply elem_of_cons in Hr as [->|Hr]; [by eexists|].
    apply list_elem_of_singleton in Hr as ->. by eexists.
  - intros l. eexists. split; reflexivity.
  - exists samples, enc. split; [|by split].
    apply Forall2_cons_inv_l in Hrows as ([e1 v1] & k1 & [H1 V1] & Hrows & ->).
    apply Forall2_cons_inv_l in Hrows as ([e2 v2] & k2 & [H2 V2] & Hrows & ->).
    apply Forall2_nil_inv_l in Hrows as ->.
    simpl in *. by simplify_eq.
Defined.

Lemma cache_hit_excludes_failure `{Utils} (w : World) (start end_ : num) rows samples enc :
  (getDataFromCache w start end_).2 = Ret rows → rows ≠ [] →
  mapM sample_of_row rows = Ret samples →
  applyDeltaEncoding samples = Ret enc →
  ¬ cache_path_fails w start end_.
Proof.
  intros Hc Hne Hm He [Hempty|[err [Hthrow|(rows' & Hc' & _ & Hthrow)]]].
  - rewrite Hc in Hempty. by injection Hempty.
  - by rewrite Hc in Hthrow.
  - rewrite Hc in Hc'. injection Hc' as <-. rewrite Hm in Hthrow.
    destruct Hthrow as [|(samples' & [= <-] & He')]; [done|].
    by rewrite He in He'.
Qed.

Lemma applyDeltaEncoding_no_isCached (l : list Sample) (enc : gmap string json) :
  DeltaCodec.applyDeltaEncoding l = Ret enc → enc !! "isCached" = None.
Proof. intros [= <-]. unfold DeltaCodec.series_to_object. by simplify_map_eq. Qed.

(** C4.  The asymmetric envelope.  With an encoder whose objects carry no
    [isCached] field of their own: a request served by the API fallback is
    answered with exactly the encoded object, in which [isCached] is absent
    (not [false]); and in every run, a response in which [isCached] is
    present has it equal to [true], was sent without any call to the API,
    and follows a cache read that returned at least one row. *)
Theorem isCached_only_on_cache_hit `{Utils} (w : World) (req : Request) :
  let start := parseInt (query_start req) in
  let end_ := parseInt (query_end req) in
  let run := (getEncodedBlocks w req).1 in
  (∀ l enc, applyDeltaEncoding l = Ret enc → enc !! "isCached" = None) →
  (cache_path_fails w start end_ →
   ∀ samples enc,
     (getDataFromApi w start end_).2 = Ret samples →
     applyDeltaEncoding samples = Ret enc →
     responses run = [(200, enc)] ∧ enc !! "isCached" = None) ∧
  (∀ status body,
     (status, body) ∈ responses run →
     is_Some (body !! "isCached") →
     body !! "isCached" = Some (JBool true) ∧
     requests run = [] ∧
     ∃ rows, (getDataFromCache w start end_).2 = Ret rows ∧ rows ≠ []).
Proof.
  intros start end_ run Henc. subst start end_ run.
  destruct (getEncodedBlocks_cases w req)
    as [(rows & samples & enc & Hc & Hne & Hm & He & Hres & Hreq)|
        (Hf & Hreq & [(samples & enc & Hapi & He & Hres)|(err & Hapi & Hres)])].
  - split.
    + intros Hf. by destruct (cache_hit_excludes_failure _ _ _ _ _ _ Hc Hne Hm He).
    + intros status body Hin _. rewrite Hres in Hin.
      apply list_elem_of_singleton in Hin as [= -> ->].
      split_and!; [|done|by eauto].
      rewrite lookup_union_r by eauto. by rewrite lookup_singleton_eq.
  - split.
    + intros _ samples' enc' Hapi' He'.
      rewrite Hapi in Hapi'. injection Hapi' as <-.
      rewrite He in He'. injection He' as <-. eauto.
    + intros status body Hin [v Hv]. rewrite Hres in Hin.
      apply list_elem_of_singleton in Hin as [= -> ->].
      by rewrite (Henc _ _ He) in Hv.
  - split.
    + intros _ samples' enc' Hapi' He'. rewrite Hapi' in Hapi; simpl in Hapi.
      by rewrite He' in Hapi.
    + intros status body Hin [v Hv]. rewrite Hres in Hin.
      apply list_elem_of_singleton in Hin as [= -> ->].
      unfold failure_body in Hv. by simplify_map_eq.
Qed.

Lemma isCached_only_on_cache_hit_witness :
  ∃ enc,
    responses (getEncodedBlocks (H:=Demo.utils) Demo.world_empty (Demo.req "1" "2")).1 =
      [(200, enc)] ∧
    enc !! "isCached" = None.
Proof.
  eexists.
  refine (proj1 (isCached_only_on_cache_hit (H:=Demo.utils) Demo.world_empty
                   (Demo.req "1" "2") applyDeltaEncoding_no_isCached) _ _ _ eq_refl eq_refl).
  left. reflexivity.
Defined.

(** ** The cache reader *)

#[local] Instance block_id_le_trans : Transitive block_id_le.
Proof. intros r1 r2 r3. unfold block_id_le. lia. Qed.

#[local] Instance block_id_le_total : Total block_id_le.
Proof. intros r1 r2. unfold block_id_le. lia. Qed.

(** C5.  On a working store [getDataFromCache] returns its rows in
    ascending order of [block_id].  With two integer bounds the rows are
    exactly those of the table whose [block_id] lies in [start, end], both
    ends included; when either bound is [NaN] the bounds play no part and
    the rows are the 100 rows of least [block_id] (all rows when the table
    holds fewer). *)
Theorem getDataFromCache_selects (w : World) (start end_ : num) :
  db_fault (db w) = None →
  ∃ rows,
    (getDataFromCache w start end_).2 = Ret rows ∧
    StronglySorted block_id_le rows ∧
    match start, end_ with
    | Int lo, Int hi =>
        rows ≡ₚ filter (λ r, lo ≤ CacheRow.block_id r ≤ hi) (db_transactions (db w))
    | _, _ =>
        ∃ rest,
          rows ++ rest ≡ₚ db_transactions (db w) ∧
          length rows = (100 `min` length (db_transactions (db w)))%nat ∧
          ∀ r r', r ∈ rows → r' ∈ rest → CacheRow.block_id r ≤ CacheRow.block_id r'
    end.
Proof.
  intros Hok.
  assert (∀ table, ∃ rest,
    take 100 (merge_sort block_id_le table) ++ rest ≡ₚ table ∧
    length (take 100 (merge_sort block_id_le table)) = (100 `min` length table)%nat ∧
    ∀ r r', r ∈ take 100 (merge_sort block_id_le table) → r' ∈ rest →
            CacheRow.block_id r ≤ CacheRow.block_id r') as Hfirst.
  { intros table. exists (drop 100 (merge_sort block_id_le table)).
    pose proof (StronglySorted_merge_sort block_id_le table) as Hs.
    rewrite <- (take_drop 100 (merge_sort block_id_le table)) in Hs.
    split_and!.
    - by rewrite take_drop, merge_sort_Permutation.
    - by rewrite length_take, merge_sort_Permutation.
    - intros r r'. by apply (StronglySorted_app_1_elem_of block_id_le _ _ r r'). }
  assert (∀ table, StronglySorted block_id_le (take 100 (merge_sort block_id_le table)))
    as Hsorted.
  { intros table.
    pose proof (StronglySorted_merge_sort block_id_le table) as Hs.
    rewrite <- (take_drop 100 (merge_sort block_id_le table)) in Hs.
    by apply StronglySorted_app_1_l in Hs. }
  unfold getDataFromCache.
  destruct start as [|lo], end_ as [|hi]; simpl; rewrite Hok; simpl;
    eexists; (split; [reflexivity|]); (split; [|try apply Hfirst]);
    try apply Hsorted.
  - apply StronglySorted_merge_sort; apply _.
  - rewrite merge_sort_Permutation.
    erewrite list_filter_iff; [reflexivity|].
    intros r; simpl. by rewrite bool_decide_eq_true.
Qed.

Lemma getDataFromCache_selects_witness :
  ∃ rows,
    (getDataFromCache Demo.world_hit (Int 1) (Int 2)).2 = Ret rows ∧
    StronglySorted block_id_le rows ∧
    rows ≡ₚ [CacheRow.mk 2 None "1970-01-01 00:01:00"; CacheRow.mk 1 (Some 3) "1970-01-01 00:00:00"].
Proof. exact (getDataFromCache_selects Demo.world_hit (Int 1) (Int 2) eq_refl). Defined.

Example getDataFromCache_default_window :
  (getDataFromCache Demo.world_hit NaN (Int 2)).2 =
    Ret [CacheRow.mk 1 (Some 3) "1970-01-01 00:00:00";
         CacheRow.mk 2 None "1970-01-01 00:01:00";
         CacheRow.mk 5 (Some 4) "1970-01-02 00:00:00"].
Proof. reflexivity. Qed.

(** ** The API client *)

(** C6.  [getDataFromApi] performs exactly one request.  With two integer
    bounds it asks for the range [start]/[end]; otherwise for the fixed
    range 1/100, and never for the whole data set.  The records of the
    answer become samples one by one, in order: the epoch is the conversion
    of the record's [createdAt], the volume is the number of its
    transactions, 0 when the list is missing; when every timestamp converts
    the samples are returned. *)
Theorem getDataFromApi_request_and_samples `{Utils} (w : World) (start end_ : num) :
  let range :=
    match start, end_ with
    | Int lo, Int hi => (pretty lo, pretty hi)
    | _, _ => ("1", "100")
    end in
  let url := getEnv "EXPLORER_BASE_URL" +:+ "/v1/blocks/" +:+ range.1 +:+ "/" +:+ range.2 in
  (getDataFromApi w start end_).1 = [AxiosGet url] ∧
  ∀ records, axios_request w url = Ret (PArray records) →
    (∀ samples, (getDataFromApi w start end_).2 = Ret samples →
       Forall2 (λ record s,
                  parseTimeToUnixEpoch (record ≫= Block.createdAt) = Ret (epoch s) ∧
                  volume s = match record ≫= Block.transactions with
                             | Some txs => Z.of_nat (length txs)
                             | None => 0
                             end) records samples) ∧
    ((∀ record, record ∈ records →
        ∃ e, parseTimeToUnixEpoch (record ≫= Block.createdAt) = Ret e) →
     ∃ samples, (getDataFromApi w start end_).2 = Ret samples).
Proof.
  intros range url. rewrite getDataFromApi_run.
  assert (getEnv "EXPLORER_BASE_URL" +:+
            (if negb (isNaN start) && negb (isNaN end_)
             then "/v1/blocks/" +:+ num_to_string start +:+ "/" +:+ num_to_string end_
             else "/v1/blocks/1/100") = url) as ->.
  { unfold url, range. by destruct start, end_. }
  split; [reflexivity|]. intros records Hremote; simpl. rewrite Hremote. split.
  - intros samples Hm%mapM_Ret_Forall2.
    eapply Forall2_impl; [exact Hm|]. intros record s. unfold sample_of_record.
    destruct (parseTimeToUnixEpoch _) as [e|]; simpl; [|done].
    intros [= <-]; simpl. split; [done|]. rewrite or_zero_default.
    by destruct (record ≫= Block.transactions).
  - intros Htime. apply mapM_Ret_total. intros record [e He]%Htime.
    unfold sample_of_record. rewrite He. by eexists.
Qed.

Lemma getDataFromApi_request_and_samples_witness :
  (getDataFromApi (H:=Demo.utils) Demo.world_empty (Int 1) (Int 2)).1 =
    [AxiosGet "http://explorer:18000/v1/blocks/1/2"] ∧
  ∃ samples, (getDataFromApi (H:=Demo.utils) Demo.world_empty (Int 1) (Int 2)).2 = Ret samples.
Proof.
  destruct (getDataFromApi_request_and_samples (H:=Demo.utils) Demo.world_empty (Int 1) (Int 2))
    as [Hreq Hrec].
  split; [exact Hreq|].
  refine (proj2 (Hrec [Some Demo.block1; Some Demo.block2] eq_refl) _).
  intros record Hin. apply elem_of_cons in Hin as [->|Hin]; [by eexists|].
  apply list_elem_of_singleton in Hin as ->. by eexists.
Defined.

Example getDataFromApi_default_range :
  requests (getDataFromApi (H:=Demo.utils) Demo.world_empty (Int 1) NaN).1 =
    ["http://explorer:18000/v1/blocks/1/100"] ∧
  (getDataFromApi (H:=Demo.utils) Demo.world_empty (Int 1) (Int 2)).2 =
    Ret [mkSample 0 2; mkSample 60 0].
Proof. split; reflexivity. Qed.

(** ** Order of the decoded samples *)




(** The declared length of an encoded series is the number of samples, so
    on a cache hit it is the number of rows read. *)
Lemma encode_count (samples : list Sample) :
  DeltaCodec.count (DeltaCodec.encode samples) = length samples.
Proof. by destruct samples. Qed.

Example cache_hit_declared_length :
  ∃ body,
    responses (getEncodedBlocks (H:=Demo.utils) Demo.world_hit (Demo.req "0" "9")).1 =
      [(200, body)] ∧
    body !! "isCached" = Some (JBool true) ∧
    body !! "length" = Some (JNum 3).
Proof. eexists. split; [reflexivity|]. split; reflexivity. Qed.


(** * Further properties of the controller *)

(** ** [parseInt] against the rendering of integers *)

Lemma digit_of_pretty_N_char (x : N) :
  (x < 10)%N → digit_of (pretty_N_char x) = Some (Z.of_N x).
Proof.
  intros Hx. destruct x as [|p]; [reflexivity|].
  do 4 (try destruct p as [p|p|]; try reflexivity; try lia).
Qed.

Lemma digit_is_plain (c : ascii) :
  is_Some (digit_of c) → is_white_space c = false ∧ c ≠ "-"%char ∧ c ≠ "+"%char.
Proof.
  intros [d Hd]. unfold digit_of in Hd. case_bool_decide as Hrange; [|done].
  split_and!.
  - unfold is_white_space.
    destruct (N_of_ascii c) as [|p] eqn:Hc; [done|].
    assert (48 ≤ Z.pos p ≤ 57) as Hp by (simpl in Hrange; lia).
    repeat (destruct p as [p|p|]; try done; try (exfalso; lia)).
  - intros ->. cbn in Hrange. lia.
  - intros ->. cbn in Hrange. lia.
Qed.

Lemma pretty_N_go_app (x : N) (s t : string) :
  pretty_N_go x s +:+ t = pretty_N_go x (s +:+ t).
Proof.
  revert s. induction (N.lt_wf_0 x) as [x _ IH]; intros s.
  assert (x = 0 ∨ 0 < x)%N as [->|Hpos] by lia.
  - by rewrite !pretty_N_go_0.
  - rewrite (pretty_N_go_step x s), (pretty_N_go_step x (s +:+ t)) by done.
    rewrite IH by (by apply N.div_lt). done.
Qed.

Lemma pretty_N_go_head (x : N) (s : string) :
  (0 < x)%N → ∃ c rest, pretty_N_go x s = String c rest ∧ is_Some (digit_of c).
Proof.
  revert s. induction (N.lt_wf_0 x) as [x _ IH]; intros s Hpos.
  rewrite pretty_N_go_step by done.
  destruct (N.eq_0_gt_0_cases (x `div` 10)) as [->|Hdiv].
  - rewrite pretty_N_go_0. eexists _, _. split; [done|].
    rewrite digit_of_pretty_N_char; [done|]. by apply N.mod_lt.
  - apply IH; [|done]. by apply N.div_lt.
Qed.

Lemma leading_digits_pretty_N_go (x : N) :
  (0 < x)%N →
  ∃ k, ∀ acc s,
    leading_digits acc (pretty_N_go x s) =
    leading_digits (Some (default 0 acc * k + Z.of_N x)) s.
Proof.
  induction (N.lt_wf_0 x) as [x _ IH]; intros Hpos.
  assert (digit_of (pretty_N_char (x `mod` 10)) = Some (Z.of_N (x `mod` 10))) as Hd.
  { apply digit_of_pretty_N_char. by apply N.mod_lt. }
  assert (Z.of_N x = 10 * Z.of_N (x `div` 10) + Z.of_N (x `mod` 10)) as Hx.
  { rewrite <- (N2Z.inj_mul 10), <- N2Z.inj_add. f_equal. by apply N.div_mod. }
  destruct (N.eq_0_gt_0_cases (x `div` 10)) as [Hdiv|Hdiv].
  - exists 10. intros acc s. rewrite pretty_N_go_step, Hdiv, pretty_N_go_0 by done.
    simpl. rewrite Hd, Hx, Hdiv. do 2 f_equal.
    generalize (Z.of_N (x `mod` 10)) (default 0 acc). intros; lia.
  - destruct (IH (x `div` 10)%N) as [k Hk]; [by apply N.div_lt|done|].
    exists (10 * k). intros acc s. rewrite pretty_N_go_step, Hk by done.
    simpl. rewrite Hd, Hx. do 2 f_equal.
    generalize (Z.of_N (x `mod` 10)) (Z.of_N (x `div` 10)) (default 0 acc).
    intros; lia.
Qed.

Lemma leading_digits_stop (acc : option Z) (s : string) :
  no_leading_digit s → leading_digits acc s = acc.
Proof. destruct s as [|c s]; simpl; [done|]. by intros ->. Qed.

Lemma parseInt_string_pretty_N (x : N) (s : string) :
  (0 < x)%N → no_leading_digit s →
  skip_white_space (pretty_N_go x s) = pretty_N_go x s ∧
  (∃ c rest, pretty_N_go x s = String c rest ∧ c ≠ "-"%char ∧ c ≠ "+"%char) ∧
  leading_digits None (pretty_N_go x s) = Some (Z.of_N x).
Proof.
  intros Hpos Hs.
  destruct (pretty_N_go_head x s Hpos) as (c & rest & Heq & Hc).
  destruct (digit_is_plain c Hc) as (Hws & Hminus & Hplus).
  split_and!.
  - rewrite Heq; simpl. by rewrite Hws.
  - by eexists _, _.
  - destruct (leading_digits_pretty_N_go x Hpos) as [k ->].
    rewrite leading_digits_stop by done. simpl. done.
Qed.

Lemma sign_split_plain (c : ascii) (rest : string) :
  c ≠ "-"%char → c ≠ "+"%char →
  match String c rest with
  | String "-" s' => (-1, s')
  | String "+" s' => (1, s')
  | _ => (1, String c rest)
  end = (1, String c rest).
Proof.
  intros Hminus Hplus.
  destruct c as [[] [] [] [] [] [] [] []]; try reflexivity; congruence.
Qed.

Lemma parseInt_string_numeral (x : N) (s : string) :
  (0 < x)%N → no_leading_digit s →
  parseInt_string (pretty_N_go x "" +:+ s) = Int (Z.of_N x).
Proof.
  intros Hpos Hs. rewrite pretty_N_go_app. change ("" +:+ s) with s.
  destruct (parseInt_string_pretty_N x s Hpos Hs)
    as (Hskip & (c & rest & Heq & Hminus & Hplus) & Hdigits).
  unfold parseInt_string. rewrite Hskip, Heq, sign_split_plain by done.
  rewrite <- Heq, Hdigits. f_equal. lia.
Qed.

(** [parseInt] reads back the decimal rendering of an integer, and
    whatever follows the numeral is ignored as long as it does not go on
    with a digit: [parseInt] of the rendering of [z] followed by such a
    suffix is [z]. *)
Theorem parseInt_numeral_prefix (z : Z) (suffix : string) :
  no_leading_digit suffix →
  parseInt (Some (pretty z +:+ suffix)) = Int z.
Proof.
  intros Hs. unfold parseInt; simpl.
  destruct z as [|p|p]; unfold pretty, pretty_Z.
  - unfold parseInt_string; simpl. by rewrite leading_digits_stop.
  - unfold pretty, pretty_positive, pretty, pretty_N.
    rewrite decide_False by done. by rewrite parseInt_string_numeral.
  - unfold pretty, pretty_positive, pretty, pretty_N.
    rewrite decide_False by done.
    change (parseInt_string (String "-" (pretty_N_go (Npos p) "" +:+ suffix)) =
            Int (Z.neg p)).
    rewrite pretty_N_go_app. change ("" +:+ suffix) with suffix.
    destruct (parseInt_string_pretty_N (Npos p) suffix) as (_ & _ & Hdigits); [done..|].
    revert Hdigits. generalize (pretty_N_go (Npos p) suffix). intros numeral Hdigits.
    unfold parseInt_string; simpl. by rewrite Hdigits.
Qed.

Lemma parseInt_numeral_prefix_witness :
  no_leading_digit "abc" ∧ parseInt (Some "-17abc") = Int (-17).
Proof.
  assert (no_leading_digit "abc") as Hs by reflexivity.
  split; [exact Hs|]. exact (parseInt_numeral_prefix (-17) "abc" Hs).
Defined.

Lemma string_app_empty_r (s : string) : s +:+ "" = s.
Proof.
  induction s as [|c s IH]; [done|].
  change (String c (s +:+ "") = String c s). by rewrite IH.
Qed.

(** ** The pass-through handlers *)

Section proxy_runs.
Context `{Utils}.

Lemma getBlocks_run (w : World) (req : Request) :
  let start := parseInt (query_start req) in
  let end_ := parseInt (query_end req) in
  let url := getEnv "EXPLORER_BASE_URL" +:+ "/v1/blocks/"
               +:+ num_to_string start +:+ "/" +:+ num_to_string end_ in
  getBlocks w req =
    if isNaN start || isNaN end_ then
      ([ProxySend (Some 400)
          (ReplyObject
             {[ "error" :=
                  JStr "Pass valid start and end query params as part of the request" ]})],
       Ret tt)
    else
      (ProxyGet url ::
         match axios_request w url with
         | Ret data => [ProxySend None (ReplyData data)]
         | Throw error =>
             [ProxyLogError "Error fetching block data:" error;
              ProxySend (Some 500)
                (ReplyObject {[ "error" := JStr "Failed to fetch block data";
                                "details" := JStr (message error) ]})]
         end,
       Ret tt).
Proof.
  intros start end_ url. unfold getBlocks. fold start end_. fold url.
  destruct (isNaN start || isNaN end_); [reflexivity|].
  unfold proxy_try_catch, mbind, Proxy_bind, proxy_lift, proxy_emit; simpl.
  by destruct (axios_request w url).
Qed.

Lemma getExplorerData_run (w : World) (req : Request) :
  let url := getEnv "EXPLORER_BASE_URL" +:+ "/populatetable" in
  getExplorerData w req =
    (ProxyGet url ::
       match axios_request w url with
       | Ret data => [ProxySend None (ReplyData data)]
       | Throw error =>
           [ProxyLogError "Error fetching explorer data:" error;
            ProxySend (Some 500)
              (ReplyObject {[ "error" := JStr "Failed to fetch explorer data";
                              "details" := JStr (message error) ]})]
       end,
     Ret tt).
Proof.
  intros url. unfold getExplorerData. fold url.
  unfold proxy_try_catch, mbind, Proxy_bind, proxy_lift, proxy_emit; simpl.
  by destruct (axios_request w url).
Qed.

End proxy_runs.

(** X1.  [getBlocks] never throws and answers every request exactly once.
    It answers 400 exactly when [start] or [end] does not parse, and then
    it does not contact the explorer; otherwise it makes exactly one
    request, for the parsed range, and its answer is not a 400. *)
Theorem getBlocks_answers_once `{Utils} (w : World) (req : Request) :
  let start := parseInt (query_start req) in
  let end_ := parseInt (query_end req) in
  let run := getBlocks w req in
  run.2 = Ret tt ∧
  ∃ status body,
    proxy_responses run.1 = [(status, body)] ∧
    if isNaN start || isNaN end_
    then status = Some 400 ∧ proxy_requests run.1 = []
    else status ≠ Some 400 ∧
         proxy_requests run.1 =
           [getEnv "EXPLORER_BASE_URL" +:+ "/v1/blocks/"
              +:+ num_to_string start +:+ "/" +:+ num_to_string end_].
Proof.
  intros start end_ run. subst run. rewrite getBlocks_run. fold start end_.
  destruct (isNaN start || isNaN end_); simpl.
  - split; [done|]. by eexists _, _.
  - split; [done|]. destruct (axios_request w _); by eexists _, _.
Qed.

(** X2.  With two bounds that parse, [getBlocks] relays the explorer: a
    body received is sent on unchanged, whatever it is (no check that it is
    an array), on a response whose status the handler leaves alone; a
    failed request is logged and answered with status 500 and the message
    of the failure in [details]. *)
Theorem getBlocks_relays_explorer `{Utils} (w : World) (req : Request) (lo hi : Z) :
  parseInt (query_start req) = Int lo →
  parseInt (query_end req) = Int hi →
  let url := getEnv "EXPLORER_BASE_URL" +:+ "/v1/blocks/"
               +:+ pretty lo +:+ "/" +:+ pretty hi in
  proxy_requests (getBlocks w req).1 = [url] ∧
  proxy_responses (getBlocks w req).1 =
    [match axios_request w url with
     | Ret data => (None, ReplyData data)
     | Throw error =>
         (Some 500,
          ReplyObject {[ "error" := JStr "Failed to fetch block data";
                         "details" := JStr (message error) ]})
     end].
Proof.
  intros Hlo Hhi url. rewrite getBlocks_run, Hlo, Hhi; simpl. fold url.
  by destruct (axios_request w url).
Qed.

Lemma getBlocks_relays_explorer_witness :
  proxy_responses (getBlocks (H:=Demo.utils) Demo.world_broken (Demo.req "7" "8")).1 =
    [(None, ReplyData PNull)] ∧
  proxy_responses (getBlocks (H:=Demo.utils) Demo.world_broken (Demo.req "3" "4")).1 =
    [(Some 500,
      ReplyObject {[ "error" := JStr "Failed to fetch block data";
                     "details" := JStr "connect ECONNREFUSED" ]})].
Proof.
  split.
  - exact (proj2 (getBlocks_relays_explorer (H:=Demo.utils) Demo.world_broken
                    (Demo.req "7" "8") 7 8 eq_refl eq_refl)).
  - exact (proj2 (getBlocks_relays_explorer (H:=Demo.utils) Demo.world_broken
                    (Demo.req "3" "4") 3 4 eq_refl eq_refl)).
Defined.

(** X3.  [getExplorerData] never throws, makes exactly one request, always
    for [/populatetable] and whatever the request carries, and answers
    exactly once: with the body received, unchanged, or with status 500
    and the message of the failure in [details]. *)
Theorem getExplorerData_relays_explorer `{Utils} (w : World) (req : Request) :
  let url := getEnv "EXPLORER_BASE_URL" +:+ "/populatetable" in
  (getExplorerData w req).2 = Ret tt ∧
  proxy_requests (getExplorerData w req).1 = [url] ∧
  proxy_responses (getExplorerData w req).1 =
    [match axios_request w url with
     | Ret data => (None, ReplyData data)
     | Throw error =>
         (Some 500,
          ReplyObject {[ "error" := JStr "Failed to fetch explorer data";
                         "details" := JStr (message error) ]})
     end].
Proof.
  intros url. rewrite getExplorerData_run; simpl. fold url.
  by destruct (axios_request w url).
Qed.

(** X4.  Text after a numeral is ignored by both block handlers: when
    [start] and [end] are decimal numerals followed by anything that does
    not go on with a digit, [getBlocks] and [getEncodedBlocks] run exactly
    as on the bare numerals; in particular [getBlocks] does not answer 400
    and asks the explorer for that range. *)
Theorem handlers_ignore_text_after_numeral `{Utils} (w : World)
    (lo hi : Z) (after_lo after_hi : string) :
  no_leading_digit after_lo → no_leading_digit after_hi →
  let req := mkRequest (Some (pretty lo +:+ after_lo)) (Some (pretty hi +:+ after_hi)) in
  let bare := mkRequest (Some (pretty lo)) (Some (pretty hi)) in
  getBlocks w req = getBlocks w bare ∧
  getEncodedBlocks w req = getEncodedBlocks w bare ∧
  proxy_requests (getBlocks w req).1 =
    [getEnv "EXPLORER_BASE_URL" +:+ "/v1/blocks/" +:+ pretty lo +:+ "/" +:+ pretty hi].
Proof.
  intros Hlo Hhi req bare.
  assert (parseInt (query_start req) = Int lo) as Hs
    by (by apply parseInt_numeral_prefix).
  assert (parseInt (query_end req) = Int hi) as He
    by (by apply parseInt_numeral_prefix).
  assert (parseInt (query_start bare) = Int lo) as Hs'.
  { simpl. rewrite <- (string_app_empty_r (pretty lo)). by apply parseInt_numeral_prefix. }
  assert (parseInt (query_end bare) = Int hi) as He'.
  { simpl. rewrite <- (string_app_empty_r (pretty hi)). by apply parseInt_numeral_prefix. }
  split_and!.
  - by rewrite !getBlocks_run, Hs, He, Hs', He'.
  - unfold getEncodedBlocks. by rewrite Hs, He, Hs', He'.
  - rewrite getBlocks_run, Hs, He; simpl. by destruct (axios_request w _).
Qed.

Lemma handlers_ignore_text_after_numeral_witness :
  getBlocks (H:=Demo.utils) Demo.world_hit (Demo.req "1abc" "2 ") =
  getBlocks (H:=Demo.utils) Demo.world_hit (Demo.req "1" "2").
Proof.
  assert (no_leading_digit "abc") as Hlo by reflexivity.
  assert (no_leading_digit " ") as Hhi by reflexivity.
  exact (proj1 (handlers_ignore_text_after_numeral (H:=Demo.utils) Demo.world_hit
                  1 2 "abc" " " Hlo Hhi)).
Defined.

(** ** The shape of every run of [getEncodedBlocks] *)

Section shape.
Context `{Utils}.
Implicit Types (w : World) (t : list event).

Lemma queries_app t1 t2 : queries (t1 ++ t2) = queries t1 ++ queries t2.
Proof. apply omap_app. Qed.

Lemma cacheBranch_trace w (start end_ : num) :
  ∃ rest,
    (cacheBranch w start end_).1 =
      LogInfo "Attempting to fetch blocks from cache"
        :: DbAll (if negb (isNaN start) && negb (isNaN end_)
                  then SelectBetween else SelectFirst100)
                 (if negb (isNaN start) && negb (isNaN end_)
                  then [start; end_] else [])
        :: rest ∧
    queries rest = [] ∧ requests rest = [].
Proof.
  unfold cacheBranch, getDataFromCache.
  destruct (negb (isNaN start) && negb (isNaN end_)); simpl;
    unfold db_all, mbind, Eff_bind, result_bind, lift, logger_info, res_send, emit; simpl;
    (destruct (db_fault (db w)); simpl; [by eexists|]);
    (case_bool_decide; simpl; [|by eexists]);
    (destruct (mapM sample_of_row _) as [samples|]; simpl; [|by eexists]);
    (destruct (applyDeltaEncoding samples); simpl; by eexists).
Qed.

Lemma apiBranch_queries w (start end_ : num) :
  queries (apiBranch w start end_).1 = [].
Proof.
  rewrite apiBranch_run, getDataFromApi_run; simpl.
  by destruct (_ ≫= applyDeltaEncoding).
Qed.

Lemma apiBranch_requests w (start end_ : num) :
  length (requests (apiBranch w start end_).1) = 1%nat.
Proof.
  rewrite apiBranch_run, getDataFromApi_run; simpl.
  by destruct (_ ≫= applyDeltaEncoding).
Qed.

Lemma lookup_query_elem t i q ps : t !! i = Some (DbAll q ps) → (q, ps) ∈ queries t.
Proof.
  intros Hi. unfold queries. apply list_elem_of_omap.
  exists (DbAll q ps). split; [|done]. by eapply list_elem_of_lookup_2.
Qed.

Lemma lookup_request_elem t j url : t !! j = Some (AxiosGet url) → url ∈ requests t.
Proof.
  intros Hj. unfold requests. apply list_elem_of_omap.
  exists (AxiosGet url). split; [|done]. by eapply list_elem_of_lookup_2.
Qed.

Lemma store_before_remote_app t1 t2 :
  requests t1 = [] → queries t2 = [] → store_before_remote (t1 ++ t2).
Proof.
  intros Hreq Hqry i j q ps url Hi Hj.
  destruct (decide (i < length t1)%nat) as [Hlt|Hge].
  - destruct (decide (j < length t1)%nat) as [Hjlt|Hjge]; [|lia].
    rewrite lookup_app_l in Hj by done.
    apply lookup_request_elem in Hj. rewrite Hreq in Hj. by apply elem_of_nil in Hj.
  - rewrite lookup_app_r in Hi by lia.
    apply lookup_query_elem in Hi. rewrite Hqry in Hi. by apply elem_of_nil in Hi.
Qed.

(** The answers of a run as a function of what the collaborators give. *)
Lemma responses_formula w req :
  let start := parseInt (query_start req) in
  let end_ := parseInt (query_end req) in
  let fallback :=
    match (getDataFromApi w start end_).2 ≫= applyDeltaEncoding with
    | Ret enc => [(200, enc)]
    | Throw err => [(500, failure_body err)]
    end in
  responses (getEncodedBlocks w req).1 =
    match (getDataFromCache w start end_).2 with
    | Ret (r :: rows) =>
        match mapM sample_of_row (r :: rows) ≫= applyDeltaEncoding with
        | Ret enc => [(200, enc ∪ {[ "isCached" := JBool true ]})]
        | Throw _ => fallback
        end
    | _ => fallback
    end.
Proof.
  intros start end_ fallback.
  assert (cache_path_fails w start end_ →
          responses (getEncodedBlocks w req).1 = fallback) as Hfall.
  { intros Hf.
    destruct (fallback_run w req Hf) as (pre & mid & Hrun & Hq & Hmid).
    fold start end_ in Hrun.
    assert (quiet mid) as Hqm by (by destruct Hmid as [->|(err & _ & ->)]).
    rewrite Hrun, apiBranch_run; cbn [fst].
    rewrite !responses_app, getDataFromApi_responses.
    destruct Hq as [-> _], Hqm as [-> _]. unfold fallback.
    by destruct (_ ≫= applyDeltaEncoding). }
  destruct (getDataFromCache w start end_).2 as [[|r rows]|err] eqn:Hc.
  - apply Hfall. by left.
  - destruct (mapM sample_of_row (r :: rows)) as [samples|err] eqn:Hm.
    + change (Ret samples ≫= applyDeltaEncoding) with (applyDeltaEncoding samples).
      destruct (applyDeltaEncoding samples) as [enc|err] eqn:He.
      * destruct (cacheBranch_rows w start end_ (r :: rows) Hc) as (pre & Hq & Hcb);
          [done|].
        rewrite Hm in Hcb.
        change (Ret samples ≫= applyDeltaEncoding) with (applyDeltaEncoding samples) in Hcb.
        rewrite He in Hcb.
        rewrite getEncodedBlocks_run. fold start end_. rewrite Hcb; cbn [fst snd].
        rewrite responses_app. by destruct Hq as [-> _].
      * apply Hfall. right. exists err. right. exists (r :: rows). eauto 10.
    + apply Hfall. right. exists err. right. exists (r :: rows). eauto 10.
  - apply Hfall. right. exists err. by left.
Qed.

End shape.

(** X5.  Every run of [getEncodedBlocks] returns normally and answers
    exactly once, with status 200 or 500 and never 400, whatever the
    request, the store and the explorer do.  The store is sent exactly one
    statement, the explorer at most one request, and the statement comes
    before the request: the two sources are consulted one after the other,
    never side by side. *)
Theorem getEncodedBlocks_answers_once `{Utils} (w : World) (req : Request) :
  let run := getEncodedBlocks w req in
  run.2 = Ret tt ∧
  (∃ status body,
      responses run.1 = [(status, body)] ∧ (status = 200 ∨ status = 500)) ∧
  length (queries run.1) = 1%nat ∧
  (length (requests run.1) ≤ 1)%nat ∧
  store_before_remote run.1.
Proof.
  intros run. subst run.
  set (start := parseInt (query_start req)). set (end_ := parseInt (query_end req)).
  destruct (cacheBranch_trace w start end_) as (rest & Htrace & Hqry & Hreq).
  split_and!.
  - rewrite getEncodedBlocks_run. fold start end_.
    by destruct (cacheBranch w start end_).2 as [[]|].
  - rewrite responses_formula. fold start end_.
    destruct (getDataFromCache w start end_).2 as [[|r rows]|];
      repeat (destruct (_ ≫= applyDeltaEncoding)); eexists _, _; eauto.
  - rewrite getEncodedBlocks_run. fold start end_.
    destruct (cacheBranch w start end_).2 as [[]|]; cbn [fst];
      rewrite ?queries_app, Htrace; simpl; rewrite Hqry; simpl;
      rewrite ?apiBranch_queries; done.
  - rewrite getEncodedBlocks_run. fold start end_.
    pose proof (apiBranch_requests w start end_) as Hone.
    destruct (cacheBranch w start end_).2 as [[]|]; cbn [fst];
      rewrite ?requests_app, Htrace; simpl; rewrite Hreq; simpl; lia.
  - rewrite getEncodedBlocks_run. fold start end_.
    destruct (cacheBranch w start end_).2 as [[]|]; cbn [fst].
    + rewrite <- (right_id_L [] (++) (cacheBranch w start end_).1).
      apply store_before_remote_app; [by rewrite Htrace; simpl|done].
    + apply store_before_remote_app;
        [by rewrite Htrace; simpl|apply apiBranch_queries].
    + apply store_before_remote_app; [by rewrite Htrace; simpl|].
      simpl. apply apiBranch_queries.
Qed.

Section formulas.
Context `{Utils}.
Implicit Types (w : World).

Lemma requests_formula w req :
  let start := parseInt (query_start req) in
  let end_ := parseInt (query_end req) in
  requests (getEncodedBlocks w req).1 =
    match (getDataFromCache w start end_).2 with
    | Ret (r :: rows) =>
        match mapM sample_of_row (r :: rows) ≫= applyDeltaEncoding with
        | Ret _ => []
        | Throw _ => requests (getDataFromApi w start end_).1
        end
    | _ => requests (getDataFromApi w start end_).1
    end.
Proof.
  intros start end_.
  destruct (getEncodedBlocks_cases w req)
    as [(rows & samples & enc & Hc & Hne & Hm & He & _ & Hreq)|(Hf & Hreq & _)];
    fold start end_ in Hc || fold start end_ in Hf.
  - rewrite Hreq. fold start end_. rewrite Hc. destruct rows as [|r rows]; [done|].
    rewrite Hm.
    change (Ret samples ≫= applyDeltaEncoding) with (applyDeltaEncoding samples).
    by rewrite He.
  - rewrite Hreq. fold start end_.
    destruct (getDataFromCache w start end_).2 as [[|r rows]|] eqn:Hc; try done.
    destruct (mapM sample_of_row (r :: rows)) as [samples|] eqn:Hm; [|done].
    change (Ret samples ≫= applyDeltaEncoding) with (applyDeltaEncoding samples).
    destruct (applyDeltaEncoding samples) as [enc|] eqn:He; [|done].
    by destruct (cache_hit_excludes_failure w start end_ (r :: rows) samples enc).
Qed.

Lemma queries_formula w req :
  let start := parseInt (query_start req) in
  let end_ := parseInt (query_end req) in
  queries (getEncodedBlocks w req).1 =
    [if negb (isNaN start) && negb (isNaN end_)
     then (SelectBetween, [start; end_])
     else (SelectFirst100, [])].
Proof.
  intros start end_.
  destruct (cacheBranch_trace w start end_) as (rest & Htrace & Hqry & _).
  rewrite getEncodedBlocks_run. fold start end_.
  destruct (cacheBranch w start end_).2 as [[]|]; cbn [fst];
    rewrite ?queries_app, Htrace; simpl; rewrite Hqry; simpl;
    rewrite ?apiBranch_queries; by destruct (negb _ && negb _).
Qed.

Lemma getDataFromApi_requests w (start end_ : num) :
  requests (getDataFromApi w start end_).1 =
    [getEnv "EXPLORER_BASE_URL" +:+
       (if negb (isNaN start) && negb (isNaN end_)
        then "/v1/blocks/" +:+ num_to_string start +:+ "/" +:+ num_to_string end_
        else "/v1/blocks/1/100")].
Proof. by rewrite getDataFromApi_run. Qed.

End formulas.

Lemma filter_between_reversed (lo hi : Z) (table : list CacheRow.t) :
  hi < lo → filter (λ r, between [Int lo; Int hi] r = true) table = [].
Proof.
  intros Hrev. induction table as [|r table IH]; [done|].
  rewrite filter_cons_False; [done|].
  simpl. rewrite bool_decide_eq_true. lia.
Qed.

(** X6.  A reversed range is not rejected and not swapped.  With integer
    bounds [end < start] a working store returns no row, so the request is
    a cache miss: the explorer is asked for the range as given,
    [start/end], and the answer of the run is the answer of the
    fallback. *)
Theorem reversed_range_is_cache_miss `{Utils} (w : World) (req : Request) (lo hi : Z) :
  parseInt (query_start req) = Int lo →
  parseInt (query_end req) = Int hi →
  hi < lo →
  db_fault (db w) = None →
  (getDataFromCache w (Int lo) (Int hi)).2 = Ret [] ∧
  requests (getEncodedBlocks w req).1 =
    [getEnv "EXPLORER_BASE_URL" +:+ "/v1/blocks/" +:+ pretty lo +:+ "/" +:+ pretty hi] ∧
  responses (getEncodedBlocks w req).1 =
    match (getDataFromApi w (Int lo) (Int hi)).2 ≫= applyDeltaEncoding with
    | Ret enc => [(200, enc)]
    | Throw err => [(500, failure_body err)]
    end.
Proof.
  intros Hlo Hhi Hrev Hok.
  assert ((getDataFromCache w (Int lo) (Int hi)).2 = Ret []) as Hc.
  { change (getDataFromCache w (Int lo) (Int hi))
      with (db_all (db w) SelectBetween [Int lo; Int hi]).
    unfold db_all, mbind, Eff_bind, lift, emit; cbn [fst snd]. rewrite Hok.
    unfold run_query. by rewrite filter_between_reversed. }
  split_and!; [done|..].
  - by rewrite requests_formula, Hlo, Hhi, Hc, getDataFromApi_requests.
  - by rewrite responses_formula, Hlo, Hhi, Hc.
Qed.

Lemma reversed_range_is_cache_miss_witness :
  requests (getEncodedBlocks (H:=Demo.utils) Demo.world_hit (Demo.req "5" "1")).1 =
    ["http://explorer:18000/v1/blocks/5/1"].
Proof.
  refine (proj1 (proj2 (reversed_range_is_cache_miss (H:=Demo.utils) Demo.world_hit
                          (Demo.req "5" "1") 5 1 eq_refl eq_refl _ eq_refl))).
  lia.
Defined.

(** ** Records and samples on the fallback path *)

Lemma mapM_Throw_first {A B : Type} (f : A → result B)
    (good : list A) (bad : A) (rest : list A) (err : exn) :
  (∀ x, x ∈ good → ∃ y, f x = Ret y) →
  f bad = Throw err →
  mapM f (good ++ bad :: rest) = Throw err.
Proof.
  intros Hgood Hbad. induction good as [|x good IH]; simpl.
  - by rewrite Hbad.
  - destruct (Hgood x) as [y ->]; [by left|]. simpl.
    rewrite IH; [done|]. intros; apply Hgood; by right.
Qed.




(** X8.  One record whose timestamp does not convert spoils the whole
    answer of the explorer.  When the records before it convert and its own
    conversion throws, [getDataFromApi] throws that error and returns no
    sample, whatever follows the record; a request that reached the
    fallback is answered with the 500 error response carrying the message
    of the conversion. *)
Theorem bad_record_fails_whole_fetch `{Utils} (w : World) (req : Request)
    (good : list (option Block.t)) (bad : option Block.t) (rest : list (option Block.t))
    (err : exn) :
  let start := parseInt (query_start req) in
  let end_ := parseInt (query_end req) in
  (∀ url, url ∈ requests (getDataFromApi w start end_).1 →
          axios_request w url = Ret (PArray (good ++ bad :: rest))) →
  (∀ record, record ∈ good →
     ∃ e, parseTimeToUnixEpoch (record ≫= Block.createdAt) = Ret e) →
  parseTimeToUnixEpoch (bad ≫= Block.createdAt) = Throw err →
  (getDataFromApi w start end_).2 = Throw err ∧
  (cache_path_fails w start end_ →
   responses (getEncodedBlocks w req).1 = [(500, failure_body err)]).
Proof.
  intros start end_ Hremote Hgood Hbad.
  assert ((getDataFromApi w start end_).2 = Throw err) as Hthrow.
  { rewrite getDataFromApi_requests in Hremote.
    rewrite getDataFromApi_run; simpl.
    rewrite (Hremote _ (list_elem_of_here _ _)).
    apply mapM_Throw_first.
    - intros record [e He]%Hgood. unfold sample_of_record. rewrite He. by eexists.
    - unfold sample_of_record. by rewrite Hbad. }
  split; [done|]. intros Hf. by apply fallback_failure_run.
Qed.

Lemma bad_record_fails_whole_fetch_witness :
  responses
    (getEncodedBlocks (H:=Demo.utils)
       (mkWorld (mkDb None [])
          (λ _, Ret (PArray [Some Demo.block1; None; Some Demo.block2])))
       (Demo.req "1" "3")).1 =
    [(500, failure_body (Error "Invalid time value"))].
Proof.
  refine (proj2 (bad_record_fails_whole_fetch (H:=Demo.utils)
                   (mkWorld (mkDb None [])
                      (λ _, Ret (PArray [Some Demo.block1; None; Some Demo.block2])))
                   (Demo.req "1" "3")
                   [Some Demo.block1] None [Some Demo.block2]
                   (Error "Invalid time value") _ _ eq_refl) _).
  - intros url _. reflexivity.
  - intros record Hin. apply list_elem_of_singleton in Hin as ->. by eexists.
  - left. reflexivity.
Defined.

(** X9.  An empty array from the explorer is not an error.  On the
    fallback path the handler encodes the empty sample list and answers
    200 with the result; only a failure of the encoder itself turns the
    answer into the 500 response. *)
Theorem empty_fetch_is_success `{Utils} (w : World) (req : Request) :
  let start := parseInt (query_start req) in
  let end_ := parseInt (query_end req) in
  cache_path_fails w start end_ →
  (∀ url, url ∈ requests (getDataFromApi w start end_).1 →
          axios_request w url = Ret (PArray [])) →
  (getDataFromApi w start end_).2 = Ret [] ∧
  responses (getEncodedBlocks w req).1 =
    [match applyDeltaEncoding [] with
     | Ret enc => (200, enc)
     | Throw err => (500, failure_body err)
     end].
Proof.
  intros start end_ Hf Hremote.
  assert ((getDataFromApi w start end_).2 = Ret []) as Hapi.
  { rewrite getDataFromApi_requests in Hremote.
    rewrite getDataFromApi_run; simpl.
    by rewrite (Hremote _ (list_elem_of_here _ _)). }
  split; [done|].
  destruct (fallback_run w req Hf) as (pre & mid & Hrun & Hq & Hmid).
  fold start end_ in Hrun.
  assert (quiet mid) as Hqm by (by destruct Hmid as [->|(err & _ & ->)]).
  rewrite Hrun, apiBranch_run; cbn [fst].
  rewrite Hapi, !responses_app, getDataFromApi_responses.
  destruct Hq as [-> _], Hqm as [-> _].
  change (Ret [] ≫= applyDeltaEncoding) with (applyDeltaEncoding []).
  by destruct (applyDeltaEncoding []).
Qed.

Lemma empty_fetch_is_success_witness :
  ∃ enc,
    DeltaCodec.applyDeltaEncoding [] = Ret enc ∧
    responses (getEncodedBlocks (H:=Demo.utils) Demo_world_proxy (Demo.req "1" "2")).1 =
      [(200, enc)].
Proof.
  eexists. split; [reflexivity|].
  refine (proj2 (empty_fetch_is_success (H:=Demo.utils) Demo_world_proxy
                   (Demo.req "1" "2") _ _)).
  - left. reflexivity.
  - intros url Hin. vm_compute in Hin.
    apply list_elem_of_singleton in Hin. rewrite Hin. reflexivity.
Defined.

(** X10.  The second [catch] also covers the encoder.  When the cache path
    does not answer, the explorer delivers samples and the delta encoding
    of these samples throws, the run answers once, with status 500 and the
    message of the encoder in [details]. *)
Theorem fallback_encoder_failure_is_500 `{Utils} (w : World) (req : Request)
    (samples : list Sample) (err : exn) :
  let start := parseInt (query_start req) in
  let end_ := parseInt (query_end req) in
  cache_path_fails w start end_ →
  (getDataFromApi w start end_).2 = Ret samples →
  applyDeltaEncoding samples = Throw err →
  responses (getEncodedBlocks w req).1 = [(500, failure_body err)] ∧
  failure_body err !! "details" = Some (JStr (message err)).
Proof.
  intros start end_ Hf Hapi Henc. split.
  - destruct (fallback_run w req Hf) as (pre & mid & Hrun & Hq & Hmid).
    fold start end_ in Hrun.
    assert (quiet mid) as Hqm by (by destruct Hmid as [->|(err' & _ & ->)]).
    rewrite Hrun, apiBranch_run; cbn [fst].
    rewrite Hapi, !responses_app, getDataFromApi_responses.
    destruct Hq as [-> _], Hqm as [-> _].
    change (Ret samples ≫= applyDeltaEncoding) with (applyDeltaEncoding samples).
    by rewrite Henc.
  - unfold failure_body. by simplify_map_eq.
Qed.

Lemma fallback_encoder_failure_is_500_witness :
  responses
    (getEncodedBlocks
       (H:=mkUtils Demo.getEnv Demo.parseTimeToUnixEpoch
             (λ samples, Throw (Error "encoder unavailable")))
       Demo_world_proxy (Demo.req "1" "2")).1 =
    [(500, failure_body (Error "encoder unavailable"))].
Proof.
  refine (proj1 (fallback_encoder_failure_is_500
                   (H:=mkUtils Demo.getEnv Demo.parseTimeToUnixEpoch
                         (λ samples, Throw (Error "encoder unavailable")))
                   Demo_world_proxy (Demo.req "1" "2") [] (Error "encoder unavailable")
                   _ eq_refl eq_refl)).
  left. reflexivity.
Defined.

(** ** Requests compared *)

(** X11.  A bound that does not parse discards the other one too.  Two
    requests that each have an unparsed [start] or [end] are served alike,
    whatever their other bound is: the same single statement (the first 100
    rows, no parameter) goes to the store, the same request (if any) goes
    to the explorer, always for the range 1/100, and the same answer comes
    back. *)
Theorem unparsed_bound_discards_range `{Utils} (w : World) (req1 req2 : Request) :
  isNaN (parseInt (query_start req1)) || isNaN (parseInt (query_end req1)) = true →
  isNaN (parseInt (query_start req2)) || isNaN (parseInt (query_end req2)) = true →
  queries (getEncodedBlocks w req1).1 = [(SelectFirst100, [])] ∧
  queries (getEncodedBlocks w req2).1 = queries (getEncodedBlocks w req1).1 ∧
  requests (getEncodedBlocks w req2).1 = requests (getEncodedBlocks w req1).1 ∧
  (∀ url, url ∈ requests (getEncodedBlocks w req1).1 →
          url = getEnv "EXPLORER_BASE_URL" +:+ "/v1/blocks/1/100") ∧
  responses (getEncodedBlocks w req2).1 = responses (getEncodedBlocks w req1).1.
Proof.
  intros Hnan1 Hnan2.
  assert (∀ s e, isNaN s || isNaN e = true →
            negb (isNaN s) && negb (isNaN e) = false) as Hflag
    by (intros [] []; done).
  assert (∀ s e, isNaN s || isNaN e = true →
            getDataFromCache w s e = db_all (db w) SelectFirst100 []) as Hcache.
  { intros s e Hnan. unfold getDataFromCache. by rewrite (Hflag s e Hnan). }
  assert (∀ s e, isNaN s || isNaN e = true →
            getDataFromApi w s e = getDataFromApi w NaN NaN) as Hapi.
  { intros s e Hnan. by rewrite !getDataFromApi_run, (Hflag s e Hnan). }
  split_and!.
  - by rewrite queries_formula, (Hflag _ _ Hnan1).
  - by rewrite !queries_formula, (Hflag _ _ Hnan1), (Hflag _ _ Hnan2).
  - by rewrite !requests_formula, (Hcache _ _ Hnan1), (Hcache _ _ Hnan2),
      (Hapi _ _ Hnan1), (Hapi _ _ Hnan2).
  - intros url. rewrite requests_formula, (Hapi _ _ Hnan1), getDataFromApi_requests.
    simpl. intros Hin.
    repeat case_match; first [by apply elem_of_nil in Hin
                             |by apply list_elem_of_singleton in Hin].
  - by rewrite !responses_formula, (Hcache _ _ Hnan1), (Hcache _ _ Hnan2),
      (Hapi _ _ Hnan1), (Hapi _ _ Hnan2).
Qed.

Lemma unparsed_bound_discards_range_witness :
  responses (getEncodedBlocks (H:=Demo.utils) Demo.world_hit (mkRequest (Some "5") None)).1 =
  responses (getEncodedBlocks (H:=Demo.utils) Demo.world_hit (mkRequest None (Some "x"))).1.
Proof.
  exact (proj2 (proj2 (proj2 (proj2
    (unparsed_bound_discards_range (H:=Demo.utils) Demo.world_hit
       (mkRequest None (Some "x")) (mkRequest (Some "5") None) eq_refl eq_refl))))).
Defined.

(** X12.  The encoded endpoint against the raw one.  For a range that
    parses and that the cache does not serve, [getEncodedBlocks] asks the
    explorer for exactly what [getBlocks] asks, and when [getBlocks]
    relays an array of records, the answer of [getEncodedBlocks] is the
    delta encoding of those records converted to samples (or the 500
    response when a conversion or the encoding throws). *)
Theorem encoded_answer_from_raw_answer `{Utils} (w : World) (req : Request)
    (lo hi : Z) (records : list (option Block.t)) :
  parseInt (query_start req) = Int lo →
  parseInt (query_end req) = Int hi →
  cache_path_fails w (Int lo) (Int hi) →
  proxy_responses (getBlocks w req).1 = [(None, ReplyData (PArray records))] →
  requests (getEncodedBlocks w req).1 = proxy_requests (getBlocks w req).1 ∧
  responses (getEncodedBlocks w req).1 =
    match mapM sample_of_record records ≫= applyDeltaEncoding with
    | Ret enc => [(200, enc)]
    | Throw err => [(500, failure_body err)]
    end.
Proof.
  intros Hlo Hhi Hf Hraw.
  rewrite getBlocks_run, Hlo, Hhi in Hraw |- *; simpl in Hraw |- *.
  assert ((getDataFromApi w (Int lo) (Int hi)).2 = mapM sample_of_record records) as Hapi.
  { rewrite getDataFromApi_run; simpl.
    destruct (axios_request w _) as [data|]; [|done].
    injection Hraw as ->. done. }
  assert (requests (getEncodedBlocks w req).1 =
          requests (getDataFromApi w (Int lo) (Int hi)).1 ∧
          responses (getEncodedBlocks w req).1 =
          match (getDataFromApi w (Int lo) (Int hi)).2 ≫= applyDeltaEncoding with
          | Ret enc => [(200, enc)]
          | Throw err => [(500, failure_body err)]
          end) as [Hreq Hres].
  { rewrite requests_formula, responses_formula, Hlo, Hhi.
    destruct (getDataFromCache w (Int lo) (Int hi)).2 as [[|r rows]|] eqn:Hc; try done.
    destruct (mapM sample_of_row (r :: rows)) as [samples|] eqn:Hm; [|done].
    change (Ret samples ≫= applyDeltaEncoding) with (applyDeltaEncoding samples).
    destruct (applyDeltaEncoding samples) as [enc|] eqn:He; [|done].
    by destruct (cache_hit_excludes_failure w (Int lo) (Int hi) (r :: rows) samples enc). }
  split.
  - rewrite Hreq, getDataFromApi_requests; simpl.
    by destruct (axios_request w _).
  - by rewrite Hres, Hapi.
Qed.

Lemma encoded_answer_from_raw_answer_witness :
  responses (getEncodedBlocks (H:=Demo.utils) Demo.world_empty (Demo.req "1" "2")).1 =
    match mapM (sample_of_record (H:=Demo.utils)) [Some Demo.block1; Some Demo.block2]
            ≫= DeltaCodec.applyDeltaEncoding with
    | Ret enc => [(200, enc)]
    | Throw err => [(500, failure_body err)]
    end.
Proof.
  refine (proj2 (encoded_answer_from_raw_answer (H:=Demo.utils) Demo.world_empty
                   (Demo.req "1" "2") 1 2 _ eq_refl eq_refl _ eq_refl)).
  left. reflexivity.
Defined.

(** X13.  A cache hit shadows the explorer.  When the cache read returns
    at least one row and these rows convert and encode, the answer is built
    from the rows alone: it is the same whatever the explorer would have
    answered, and the explorer is not contacted. *)
Theorem cache_hit_shadows_explorer `{Utils} (w : World) (req : Request)
    (rows : list CacheRow.t) (enc : gmap string json)
    (other : string → result payload) :
  let start := parseInt (query_start req) in
  let end_ := parseInt (query_end req) in
  (getDataFromCache w start end_).2 = Ret rows →
  rows ≠ [] →
  mapM sample_of_row rows ≫= applyDeltaEncoding = Ret enc →
  responses (getEncodedBlocks (mkWorld (db w) other) req).1 =
    responses (getEncodedBlocks w req).1 ∧
  requests (getEncodedBlocks (mkWorld (db w) other) req).1 = [].
Proof.
  intros start end_ Hc Hne Henc.
  assert ((getDataFromCache (mkWorld (db w) other) start end_).2 = Ret rows) as Hc'
    by exact Hc.
  rewrite !responses_formula, requests_formula. fold start end_.
  rewrite Hc, Hc'. destruct rows as [|r rows]; [done|]. by rewrite Henc.
Qed.

Lemma cache_hit_shadows_explorer_witness :
  responses (getEncodedBlocks (H:=Demo.utils)
               (mkWorld (db Demo.world_hit) Demo_remote_proxy) (Demo.req "1" "2")).1 =
  responses (getEncodedBlocks (H:=Demo.utils) Demo.world_hit (Demo.req "1" "2")).1.
Proof.
  refine (proj1 (cache_hit_shadows_explorer (H:=Demo.utils) Demo.world_hit
                   (Demo.req "1" "2") _ _ Demo_remote_proxy eq_refl _ eq_refl)).
  discriminate.
Defined.

(** X14.  One cached row whose timestamp does not convert discards the
    whole cache result.  When the rows before it convert and its own
    conversion throws, none of the rows is used: the explorer is asked for
    the range and the answer of the run is the answer of the fallback, as
    on a cache miss. *)
Theorem bad_row_discards_cache `{Utils} (w : World) (req : Request)
    (good : list CacheRow.t) (bad : CacheRow.t) (rest : list CacheRow.t) (err : exn) :
  let start := parseInt (query_start req) in
  let end_ := parseInt (query_end req) in
  (getDataFromCache w start end_).2 = Ret (good ++ bad :: rest) →
  (∀ r, r ∈ good → ∃ e, parseTimeToUnixEpoch (Some (CacheRow.created_at r)) = Ret e) →
  parseTimeToUnixEpoch (Some (CacheRow.created_at bad)) = Throw err →
  requests (getEncodedBlocks w req).1 = requests (getDataFromApi w start end_).1 ∧
  responses (getEncodedBlocks w req).1 =
    match (getDataFromApi w start end_).2 ≫= applyDeltaEncoding with
    | Ret enc => [(200, enc)]
    | Throw apiError => [(500, failure_body apiError)]
    end.
Proof.
  intros start end_ Hc Hgood Hbad.
  assert (mapM sample_of_row (good ++ bad :: rest) = Throw err) as Hm.
  { apply mapM_Throw_first.
    - intros r [e He]%Hgood. unfold sample_of_row. rewrite He. by eexists.
    - unfold sample_of_row. by rewrite Hbad. }
  rewrite requests_formula, responses_formula. fold start end_. rewrite Hc.
  destruct (good ++ bad :: rest) as [|r rows] eqn:Hrows; [done|].
  by rewrite Hm.
Qed.

Lemma bad_row_discards_cache_witness :
  requests
    (getEncodedBlocks (H:=Demo.utils)
       (mkWorld (mkDb None [CacheRow.mk 1 (Some 3) "1970-01-01 00:00:00";
                            CacheRow.mk 2 None "yesterday"]) Demo.remote)
       (Demo.req "1" "2")).1 =
    ["http://explorer:18000/v1/blocks/1/2"].
Proof.
  refine (proj1 (bad_row_discards_cache (H:=Demo.utils)
                   (mkWorld (mkDb None [CacheRow.mk 1 (Some 3) "1970-01-01 00:00:00";
                                        CacheRow.mk 2 None "yesterday"]) Demo.remote)
                   (Demo.req "1" "2")
                   [CacheRow.mk 1 (Some 3) "1970-01-01 00:00:00"] (CacheRow.mk 2 None "yesterday") []
                   (Error "Invalid time value") eq_refl _ eq_refl)).
  intros r Hin. apply list_elem_of_singleton in Hin as ->. by eexists.
Defined.
